(** * rnacanvas.forms: FormFronter and DragTranslater

  A shallow embedding of the two DOM helpers of the repository,

  - [src/FormFronter.ts]   (class [FormFronter]), and
  - [src/DragTranslater.ts] (class [DragTranslater], in its two revisions),

  together with the small part of the browser platform they call into
  (the node tree, [Node.contains], [Node.appendChild], the inline
  [translate] style, [classList] and [getBoundingClientRect]).

  Conventions.
  - Every method is a computation in the monad [M S], state passing over
    a state [S] with JavaScript exceptions as an explicit [Throw] result.
  - Pixel quantities (the JavaScript [number]s of [Vector], [DOMRect] and
    [MouseEvent.movementX/Y]) are integers, [Z]; the rounding of the
    rendering engine is outside the model.
  - DOM nodes are references ([node]); the tree lives in a store. *)

From Stdlib Require Import ZArith String Ascii List Lia.
From Stdlib Require Import DecimalString DecimalZ.
From stdpp Require Import base option list gmap strings.

Local Open Scope Z_scope.

(** ** Exceptions and the method monad *)

Inductive Exception : Type :=
  | HierarchyRequestError
  | TypeError
  | SyntaxError
  | InvalidCharacterError.

Inductive Result (A : Type) : Type :=
  | Ok (a : A)
  | Throw (e : Exception).

Arguments Ok {A} a.
Arguments Throw {A} e.

Definition M (S A : Type) : Type := S → Result (A * S).

Definition ret {S A : Type} (a : A) : M S A := λ s, Ok (a, s).

Definition bind {S A B : Type} (m : M S A) (k : A → M S B) : M S B :=
  λ s, match m s with
       | Ok (a, s') => k a s'
       | Throw e => Throw e
       end.

Definition throw {S A : Type} (e : Exception) : M S A := λ _, Throw e.
Definition get {S : Type} : M S S := λ s, Ok (s, s).
Definition put {S : Type} (s : S) : M S unit := λ _, Ok (tt, s).
Definition modify {S : Type} (f : S → S) : M S unit := λ s, Ok (tt, f s).

Notation "'let!' x ':=' m 'in' k" := (bind m (λ x, k))
  (at level 10, x name, m at level 100, k at level 200,
   format "'[v' 'let!'  x  ':='  m  'in' '/' k ']'").
Notation "m '>>' k" := (bind m (λ _, k))
  (at level 100, k at level 200, right associativity).

(** The value a computation returns, when it returns normally. *)
Definition eval {S A : Type} (m : M S A) (s : S) : option A :=
  match m s with
  | Ok (a, _) => Some a
  | Throw _ => None
  end.

(** The state a computation ends in, when it returns normally. *)
Definition exec {S A : Type} (m : M S A) (s : S) : option S :=
  match m s with
  | Ok (_, s') => Some s'
  | Throw _ => None
  end.

(** ** The DOM platform *)

Module DOM.

(** A node reference. *)
Definition node : Type := nat.

(** The node tree: parent pointers and ordered child lists. *)
Record Document : Type := {
  parents : gmap node node;
  children : gmap node (list node);
}.

Definition parentNode (d : Document) (n : node) : option node :=
  parents d !! n.

Definition childNodes (d : Document) (n : node) : list node :=
  default [] (children d !! n).

Definition lastChild (d : Document) (n : node) : option node :=
  last (childNodes d n).

(** [climb fuel d a n]: is [a] an inclusive ancestor of [n], looking at
    most [fuel] parent links up from [n]. *)
Fixpoint climb (fuel : nat) (d : Document) (a n : node) : bool :=
  if decide (n = a) then true
  else match fuel with
       | O => false
       | S fuel' =>
           match parentNode d n with
           | None => false
           | Some p => climb fuel' d a p
           end
       end.

(** [Node.contains(other)] for a node argument: [other] is an inclusive
    descendant of [self].  A tree with [k] parent links has no chain of
    more than [k] links. *)
Definition contains_node (d : Document) (self other : node) : bool :=
  climb (size (parents d)) d self other.

(** The specification of [contains]: the inclusive-descendant relation. *)
Inductive inclusive_descendant (d : Document) (a : node) : node → Prop :=
  | descendant_self : inclusive_descendant d a a
  | descendant_child (n p : node) :
      parentNode d n = Some p →
      inclusive_descendant d a p →
      inclusive_descendant d a n.

(** [reaches_root fuel d n]: the parent chain of [n] ends within [fuel]
    links. *)
Fixpoint reaches_root (fuel : nat) (d : Document) (n : node) : bool :=
  match parentNode d n with
  | None => true
  | Some p =>
      match fuel with
      | O => false
      | S fuel' => reaches_root fuel' d p
      end
  end.

(** A node tree has no cycle of parent links. *)
Definition acyclic (d : Document) : Prop :=
  map_Forall (λ n _, reaches_root (size (parents d)) d n = true) (parents d).

Global Instance acyclic_dec (d : Document) : Decision (acyclic d).
Proof. unfold acyclic. apply _. Defined.

(** Removal of [c] from the child list of its parent, if it has one. *)
Definition detach (c : node) (d : Document) : Document :=
  match parentNode d c with
  | None => d
  | Some q =>
      {| parents := delete c (parents d);
         children := <[q := filter (λ k, k ≠ c) (childNodes d q)]> (children d) |}
  end.

(** Insertion of [c] as the last child of [p]. *)
Definition attach_last (p c : node) (d : Document) : Document :=
  {| parents := <[c := p]> (parents d);
     children := <[p := childNodes d p ++ [c]]> (children d) |}.

(** [parent.appendChild(child)]: throws when [child] is an inclusive
    ancestor of [parent]; otherwise [child] leaves its current position
    and becomes the last child of [parent].  Returns [child]. *)
Definition appendChild (parent child : node) : M Document node :=
  let! d := get in
  if contains_node d child parent then throw HierarchyRequestError
  else put (attach_last parent child (detach child d)) >> ret child.

(** What an event was dispatched at. *)
Inductive EventTarget : Type :=
  | TargetNode (n : node)   (* an object that is [instanceof Node] *)
  | TargetOther             (* an event target that is not a node *)
  | TargetNull.             (* [null] *)

Definition instanceof_Node (t : EventTarget) : bool :=
  match t with
  | TargetNode _ => true
  | _ => false
  end.

(** [self.contains(other)]: [null] is contained in nothing, and an
    argument that is not a node is a [TypeError]. *)
Definition contains {S : Type} (d : Document) (self : node) (other : EventTarget)
  : M S bool :=
  match other with
  | TargetNode n => ret (contains_node d self n)
  | TargetNull => ret false
  | TargetOther => throw TypeError
  end.

(** [a === b] between an event target and a node. *)
Definition strict_equal (t : EventTarget) (n : node) : bool :=
  match t with
  | TargetNode m => bool_decide (m = n)
  | _ => false
  end.

Record MouseEvent : Type := {
  target : EventTarget;
  movementX : Z;
  movementY : Z;
}.

Record DOMRect : Type := {
  x : Z;
  y : Z;
  width : Z;
  height : Z;
}.

(** The part of an HTML element the components read and write: its place
    in the tree ([self]), its inline [style.translate] and its
    [classList]. *)
Record HTMLElement : Type := {
  self : node;
  style_translate : string;
  classList : list string;
}.

Definition with_style_translate (value : string) (el : HTMLElement) : HTMLElement :=
  {| self := self el; style_translate := value; classList := classList el |}.

Definition with_classList (tokens : list string) (el : HTMLElement) : HTMLElement :=
  {| self := self el; style_translate := style_translate el; classList := tokens |}.

Definition is_ascii_whitespace (c : ascii) : bool :=
  match c with
  | "009"%char | "010"%char | "012"%char | "013"%char | " "%char => true
  | _ => false
  end.

Fixpoint has_whitespace (s : string) : bool :=
  match s with
  | EmptyString => false
  | String c s' => is_ascii_whitespace c || has_whitespace s'
  end.

(** The token check of [DOMTokenList.add] and [DOMTokenList.remove]. *)
Definition validate_token {S : Type} (token : string) : M S unit :=
  if bool_decide (token = EmptyString) then throw SyntaxError
  else if has_whitespace token then throw InvalidCharacterError
  else ret tt.

Definition DOMTokenList_add (token : string) (tokens : list string) : list string :=
  if bool_decide (token ∈ tokens) then tokens else tokens ++ [token].

Definition DOMTokenList_remove (token : string) (tokens : list string) : list string :=
  filter (λ t, t ≠ token) tokens.

(** [String(n)] for an integer [n]: decimal digits, with a leading minus
    sign for a negative number. *)
Definition Number_toString (n : Z) : string :=
  NilZero.string_of_int (Z.to_int n).

End DOM.

Import DOM.

(** ** FormFronter *)

Module FormFronter.

Record FormFronter : Type := { targetForm : node }.

Definition bringToFront (this : FormFronter) : M Document unit :=
  let! d := get in
  (* nothing to do if the target form has no parent node *)
  match parentNode d (targetForm this) with
  | None => ret tt
  | Some parentNode =>
      (* nothing to do if the target form is already the last child *)
      let lastChild := lastChild d parentNode in
      if bool_decide (lastChild = Some (targetForm this)) then ret tt
      else
        (* make the target form the last child *)
        appendChild parentNode (targetForm this) >> ret tt
  end.

(** The [mousedown] listener registered by the constructor. *)
Definition onmousedown (this : FormFronter) (_ : MouseEvent) : M Document unit :=
  bringToFront this.

End FormFronter.

(** ** DragTranslater (first revision, [src/DragTranslater.ts] lines 1-109) *)

Module DragTranslaterV1.

Record Vector : Type := {
  x : Z;
  y : Z;
}.

Record State : Type := {
  (** The most recent mouse down event. *)
  lastMouseDown : option MouseEvent;
  (** Set to true when the mouse is down. *)
  mouseIsDown : bool;
  targetForm : HTMLElement;
}.

Definition set_lastMouseDown (event : MouseEvent) (this : State) : State :=
  {| lastMouseDown := Some event;
     mouseIsDown := mouseIsDown this;
     targetForm := targetForm this |}.

Definition set_mouseIsDown (b : bool) (this : State) : State :=
  {| lastMouseDown := lastMouseDown this;
     mouseIsDown := b;
     targetForm := targetForm this |}.

Definition set_style_translate (value : string) (this : State) : State :=
  {| lastMouseDown := lastMouseDown this;
     mouseIsDown := mouseIsDown this;
     targetForm := with_style_translate value (targetForm this) |}.

Section Platform.

(** The rendering engine: the bounding box the target form is displayed
    with, as a function of the element's current properties. *)
Variable getBoundingClientRect : HTMLElement → DOMRect.

Definition get_currentTranslation : M State Vector :=
  let! this := get in
  let translatedClientRect := getBoundingClientRect (targetForm this) in
  let translatedX := DOM.x translatedClientRect in
  let translatedY := DOM.y translatedClientRect in
  (* cache `translate` CSS property *)
  let translate := style_translate (targetForm this) in
  (* remove all translation *)
  modify (set_style_translate "0px 0px") >>
  let! this := get in
  let untranslatedClientRect := getBoundingClientRect (targetForm this) in
  let untranslatedX := DOM.x untranslatedClientRect in
  let untranslatedY := DOM.y untranslatedClientRect in
  (* restore translation *)
  modify (set_style_translate translate) >>
  ret {| x := translatedX - untranslatedX;
         y := translatedY - untranslatedY |}.

Definition set_currentTranslation (currentTranslation : Vector) : M State unit :=
  modify (set_style_translate
            (Number_toString (x currentTranslation) +:+ "px " +:+
             Number_toString (y currentTranslation) +:+ "px")).

Definition untranslate : M State unit :=
  modify (set_style_translate "0px 0px").

Definition handleMouseDown (event : MouseEvent) : M State unit :=
  modify (set_lastMouseDown event) >>
  modify (set_mouseIsDown true).

Definition handleMouseMove (event : MouseEvent) : M State unit :=
  let! this := get in
  if negb (mouseIsDown this) then ret tt else
  match lastMouseDown this with
  | None => ret tt
  | Some lastMouseDown =>
      if negb (strict_equal (target lastMouseDown) (self (targetForm this)))
      then ret tt else
      let! currentTranslation := get_currentTranslation in
      set_currentTranslation
        {| x := x currentTranslation + movementX event;
           y := y currentTranslation + movementY event |}
  end.

Definition handleMouseUp (event : MouseEvent) : M State unit :=
  modify (set_mouseIsDown false).

(** The events the constructor listens to, on the window. *)
Inductive Event : Type :=
  | mousedown (event : MouseEvent)
  | mousemove (event : MouseEvent)
  | mouseup (event : MouseEvent).

Definition dispatch (ev : Event) : M State unit :=
  match ev with
  | mousedown event => handleMouseDown event
  | mousemove event => handleMouseMove event
  | mouseup event => handleMouseUp event
  end.

Fixpoint dispatch_all (evs : list Event) : M State unit :=
  match evs with
  | [] => ret tt
  | ev :: evs' => dispatch ev >> dispatch_all evs'
  end.

End Platform.

(** The object the constructor builds. *)
Definition new (targetForm : HTMLElement) : State :=
  {| lastMouseDown := None; mouseIsDown := false; targetForm := targetForm |}.

End DragTranslaterV1.

(** ** DragTranslater (current revision, [src/DragTranslater.ts] lines 110-247) *)

Module DragTranslater.

Record Vector : Type := {
  x : Z;
  y : Z;
}.

Inductive InteractionDepth : Type := shallow | deep.

Record State : Type := {
  (** The most recent mouse down event. *)
  lastMouseDown : option MouseEvent;
  (** Set to true when the mouse is down. *)
  mouseIsDown : bool;
  (** The depth of interaction with the target form. *)
  interactionDepth : InteractionDepth;
  targetForm : HTMLElement;
  (** The node tree the target form lives in. *)
  document : Document;
}.

Definition set_lastMouseDown (event : MouseEvent) (this : State) : State :=
  {| lastMouseDown := Some event;
     mouseIsDown := mouseIsDown this;
     interactionDepth := interactionDepth this;
     targetForm := targetForm this;
     document := document this |}.

Definition set_mouseIsDown (b : bool) (this : State) : State :=
  {| lastMouseDown := lastMouseDown this;
     mouseIsDown := b;
     interactionDepth := interactionDepth this;
     targetForm := targetForm this;
     document := document this |}.

Definition set_interactionDepth (depth : InteractionDepth) (this : State) : State :=
  {| lastMouseDown := lastMouseDown this;
     mouseIsDown := mouseIsDown this;
     interactionDepth := depth;
     targetForm := targetForm this;
     document := document this |}.

Definition set_targetForm (el : HTMLElement) (this : State) : State :=
  {| lastMouseDown := lastMouseDown this;
     mouseIsDown := mouseIsDown this;
     interactionDepth := interactionDepth this;
     targetForm := el;
     document := document this |}.

Definition set_style_translate (value : string) (this : State) : State :=
  set_targetForm (with_style_translate value (targetForm this)) this.

Definition set_classList (tokens : list string) (this : State) : State :=
  set_targetForm (with_classList tokens (targetForm this)) this.

(** The [`${x}px ${y}px`] template of the setter. *)
Definition translate_value (v : Vector) : string :=
  Number_toString (x v) +:+ "px " +:+ Number_toString (y v) +:+ "px".

Section Platform.

(** The rendering engine: the bounding box the target form is displayed
    with, as a function of the element's current properties. *)
Variable getBoundingClientRect : HTMLElement → DOMRect.

(** [styles['grab-cursor']], the class name exported by
    [DragTranslater.css]. *)
Variable grab_cursor : string.

Definition get_currentTranslation : M State Vector :=
  let! this := get in
  let translatedClientRect := getBoundingClientRect (targetForm this) in
  let translatedX := DOM.x translatedClientRect in
  let translatedY := DOM.y translatedClientRect in
  (* cache `translate` CSS property *)
  let translate := style_translate (targetForm this) in
  (* remove all translation *)
  modify (set_style_translate "0px 0px") >>
  let! this := get in
  let untranslatedClientRect := getBoundingClientRect (targetForm this) in
  let untranslatedX := DOM.x untranslatedClientRect in
  let untranslatedY := DOM.y untranslatedClientRect in
  (* restore translation *)
  modify (set_style_translate translate) >>
  ret {| x := translatedX - untranslatedX;
         y := translatedY - untranslatedY |}.

Definition set_currentTranslation (currentTranslation : Vector) : M State unit :=
  modify (set_style_translate (translate_value currentTranslation)).

Definition untranslate : M State unit :=
  modify (set_style_translate "0px 0px").

Definition handleMouseDown (event : MouseEvent) : M State unit :=
  modify (set_lastMouseDown event) >>
  modify (set_mouseIsDown true).

Definition handleMouseMove (event : MouseEvent) : M State unit :=
  let! this := get in
  if negb (mouseIsDown this) then ret tt else
  match lastMouseDown this with
  | None => ret tt
  | Some lastMouseDown =>
      if negb (instanceof_Node (target lastMouseDown)) then ret tt else
      let accumulate : M State unit :=
        let! currentTranslation := get_currentTranslation in
        set_currentTranslation
          {| x := x currentTranslation + movementX event;
             y := y currentTranslation + movementY event |} in
      match interactionDepth this with
      | shallow =>
          if negb (strict_equal (target lastMouseDown) (self (targetForm this)))
          then ret tt else accumulate
      | deep =>
          let! inside := contains (document this) (self (targetForm this))
                           (target lastMouseDown) in
          if negb inside then ret tt else accumulate
      end
  end.

Definition handleMouseUp (event : MouseEvent) : M State unit :=
  modify (set_mouseIsDown false).

(** The [mouseover] listener of the target form. *)
Definition handleMouseOver (event : MouseEvent) : M State unit :=
  let! this := get in
  if strict_equal (target event) (self (targetForm this)) then
    validate_token grab_cursor >>
    modify (set_classList (DOMTokenList_add grab_cursor (classList (targetForm this))))
  else ret tt.

(** The [mouseout] listener of the target form. *)
Definition handleMouseOut (event : MouseEvent) : M State unit :=
  let! this := get in
  if strict_equal (target event) (self (targetForm this)) then
    validate_token grab_cursor >>
    modify (set_classList (DOMTokenList_remove grab_cursor (classList (targetForm this))))
  else ret tt.

(** The events the constructor listens to. *)
Inductive Event : Type :=
  | mousedown (event : MouseEvent)
  | mousemove (event : MouseEvent)
  | mouseup (event : MouseEvent)
  | mouseover (event : MouseEvent)
  | mouseout (event : MouseEvent).

Definition dispatch (ev : Event) : M State unit :=
  match ev with
  | mousedown event => handleMouseDown event
  | mousemove event => handleMouseMove event
  | mouseup event => handleMouseUp event
  | mouseover event => handleMouseOver event
  | mouseout event => handleMouseOut event
  end.

(** Events are handled one after the other, each handler running to
    completion. *)
Fixpoint dispatch_all (evs : list Event) : M State unit :=
  match evs with
  | [] => ret tt
  | ev :: evs' => dispatch ev >> dispatch_all evs'
  end.

End Platform.

(** The object the constructor builds. *)
Definition new (targetForm : HTMLElement) (document : Document) : State :=
  {| lastMouseDown := None;
     mouseIsDown := false;
     interactionDepth := shallow;
     targetForm := targetForm;
     document := document |}.

(** *** Vocabulary of the properties *)

Definition zero : Vector := {| x := 0; y := 0 |}.

Definition plus (v w : Vector) : Vector :=
  {| x := x v + x w; y := y v + y w |}.

(** The incremental movement a move event reports. *)
Definition movement (event : MouseEvent) : Vector :=
  {| x := movementX event; y := movementY event |}.

(** The coordinate-wise sum of the movements of a list of move events. *)
Definition total_movement (events : list MouseEvent) : Vector :=
  foldr (λ event acc, plus (movement event) acc) zero events.

(** How far the engine displays an element from where it displays it with
    a [translate] of [0px 0px]. *)
Definition displacement (rect : HTMLElement → DOMRect) (el : HTMLElement) : Vector :=
  {| x := DOM.x (rect el) - DOM.x (rect (with_style_translate "0px 0px" el));
     y := DOM.y (rect el) - DOM.y (rect (with_style_translate "0px 0px" el)) |}.

(** The assumption on the rendering engine: an element whose [translate]
    is a pair of pixel lengths is displayed that far from where it is
    displayed with [0px 0px], all its other properties being the same. *)
Definition honours_translate (rect : HTMLElement → DOMRect) : Prop :=
  ∀ (el : HTMLElement) (v : Vector),
    DOM.x (rect (with_style_translate (translate_value v) el))
    = DOM.x (rect (with_style_translate "0px 0px" el)) + x v ∧
    DOM.y (rect (with_style_translate (translate_value v) el))
    = DOM.y (rect (with_style_translate "0px 0px" el)) + y v.

(** When the origin of a press qualifies for a drag of [form]: it is the
    form itself, or in deep mode a node inside it. *)
Definition qualifies (depth : InteractionDepth) (d : Document) (form : node)
    (origin : EventTarget) : Prop :=
  match origin with
  | TargetNode o =>
      match depth with
      | shallow => o = form
      | deep => inclusive_descendant d form o
      end
  | _ => False
  end.

(** The events of the hover affordance. *)
Definition is_hover (ev : Event) : bool :=
  match ev with
  | mouseover _ | mouseout _ => true
  | _ => false
  end.

(** The two-state machine of the press: held after a mouse down, idle
    after a mouse up, as it was after anything else. *)
Definition held_step (held : bool) (ev : Event) : bool :=
  match ev with
  | mousedown _ => true
  | mouseup _ => false
  | _ => held
  end.

Definition held_after (evs : list Event) (held : bool) : bool :=
  fold_left held_step evs held.

(** The press on record: the event of the latest mouse down. *)
Definition recorded_step (recorded : option MouseEvent) (ev : Event)
  : option MouseEvent :=
  match ev with
  | mousedown event => Some event
  | _ => recorded
  end.

Definition recorded_after (evs : list Event) (recorded : option MouseEvent)
  : option MouseEvent :=
  fold_left recorded_step evs recorded.

(** A box moved as a whole, as when the page is scrolled. *)
Definition shift (dx dy : Z) (r : DOMRect) : DOMRect :=
  {| DOM.x := DOM.x r + dx;
     DOM.y := DOM.y r + dy;
     width := width r;
     height := height r |}.

(** The assumption that the class list of an element has no influence on
    where the engine displays it. *)
Definition ignores_classList (rect : HTMLElement → DOMRect) : Prop :=
  ∀ (el : HTMLElement) (tokens : list string),
    rect (with_classList tokens el) = rect el.

(** The assumption on the style sheet: its class name is a token
    [classList] accepts. *)
Definition valid_token (token : string) : Prop :=
  token ≠ EmptyString ∧ has_whitespace token = false.

End DragTranslater.

(** The fields the two revisions share. *)
Definition forget_depth (this : DragTranslater.State) : DragTranslaterV1.State :=
  {| DragTranslaterV1.lastMouseDown := DragTranslater.lastMouseDown this;
     DragTranslaterV1.mouseIsDown := DragTranslater.mouseIsDown this;
     DragTranslaterV1.targetForm := DragTranslater.targetForm this |}.

Definition forget_vector (v : DragTranslater.Vector) : DragTranslaterV1.Vector :=
  {| DragTranslaterV1.x := DragTranslater.x v;
     DragTranslaterV1.y := DragTranslater.y v |}.

(** An event of the first revision, as an event of the current one. *)
Definition current_event (ev : DragTranslaterV1.Event) : DragTranslater.Event :=
  match ev with
  | DragTranslaterV1.mousedown event => DragTranslater.mousedown event
  | DragTranslaterV1.mousemove event => DragTranslater.mousemove event
  | DragTranslaterV1.mouseup event => DragTranslater.mouseup event
  end.

(** An object of the first revision, as an object of the current one in its
    default mode. *)
Definition as_current (this : DragTranslaterV1.State) (d : Document)
  : DragTranslater.State :=
  {| DragTranslater.lastMouseDown := DragTranslaterV1.lastMouseDown this;
     DragTranslater.mouseIsDown := DragTranslaterV1.mouseIsDown this;
     DragTranslater.interactionDepth := DragTranslater.shallow;
     DragTranslater.targetForm := DragTranslaterV1.targetForm this;
     DragTranslater.document := d |}.

(** ** A reference rendering engine

    An engine that displays an element at a fixed layout position,
    displaced by the lengths of its inline [translate] value.  It is the
    instance at which the assumptions on [getBoundingClientRect] made below
    are discharged. *)

Module ReferenceEngine.

Definition is_number_char (c : ascii) : bool :=
  match c with
  | "-"%char
  | "0"%char | "1"%char | "2"%char | "3"%char | "4"%char
  | "5"%char | "6"%char | "7"%char | "8"%char | "9"%char => true
  | _ => false
  end.

(** The longest prefix made of sign and digits, and what follows it. *)
Fixpoint span_number (s : string) : string * string :=
  match s with
  | EmptyString => (EmptyString, EmptyString)
  | String c s' =>
      if is_number_char c then
        let (number, rest) := span_number s' in (String c number, rest)
      else (EmptyString, s)
  end.

(** A length in pixels at the head of [s]: [<integer>px]. *)
Definition parse_px (s : string) : option (Z * string) :=
  let (number, rest) := span_number s in
  match NilZero.int_of_string number, rest with
  | Some n, String "p" (String "x" rest') => Some (Z.of_int n, rest')
  | _, _ => None
  end.

(** The value of a [translate] property: one or two lengths in pixels. *)
Definition parse_translate (s : string) : option (Z * Z) :=
  match parse_px s with
  | Some (dx, EmptyString) => Some (dx, 0)
  | Some (dx, String " " s') =>
      match parse_px s' with
      | Some (dy, EmptyString) => Some (dx, dy)
      | _ => None
      end
  | _ => None
  end.

(** The box of an element laid out at [layout]: displaced by its
    [translate] value when there is one the engine understands. *)
Definition getBoundingClientRect (layout : DOMRect) (el : HTMLElement) : DOMRect :=
  match parse_translate (style_translate el) with
  | Some (dx, dy) =>
      {| DOM.x := DOM.x layout + dx;
         DOM.y := DOM.y layout + dy;
         width := width layout;
         height := height layout |}
  | None => layout
  end.

End ReferenceEngine.

(** ** Sample pages *)

Module Sample.

(** A container [0] with the forms [1] and [2]; form [1] holds a button
    [3], which holds a label [4]. *)
Definition page : Document :=
  {| parents := {[ 1%nat := 0%nat; 2%nat := 0%nat; 3%nat := 1%nat; 4%nat := 3%nat ]};
     children := {[ 0%nat := [1%nat; 2%nat]; 1%nat := [3%nat]; 3%nat := [4%nat] ]} |}.

Definition form : HTMLElement :=
  {| self := 1%nat; style_translate := "10px -4px"; classList := ["form"%string] |}.

Definition layout : DOMRect :=
  {| DOM.x := 100; DOM.y := 50; width := 320; height := 200 |}.

Definition event (origin : EventTarget) (dx dy : Z) : MouseEvent :=
  {| target := origin; movementX := dx; movementY := dy |}.

Definition translater : DragTranslater.State :=
  DragTranslater.new form page.

Definition rect : HTMLElement → DOMRect :=
  ReferenceEngine.getBoundingClientRect layout.

Definition grab_cursor : string := "grab-cursor".

Definition press_on_form : MouseEvent := event (TargetNode 1%nat) 0 0.
Definition press_on_label : MouseEvent := event (TargetNode 4%nat) 0 0.
Definition press_on_window : MouseEvent := event TargetOther 0 0.
Definition release : MouseEvent := event (TargetNode 2%nat) 0 0.
Definition moves : list MouseEvent :=
  [event (TargetNode 1%nat) 3 4; event (TargetNode 2%nat) (-5) 2; event TargetNull 1 0].

Definition first_translater : DragTranslaterV1.State :=
  DragTranslaterV1.new form.

Definition fronter (n : node) : FormFronter.FormFronter :=
  {| FormFronter.targetForm := n |}.


Definition session : list DragTranslater.Event :=
  [DragTranslater.mouseover press_on_form;
   DragTranslater.mousedown press_on_form;
   DragTranslater.mousemove (event (TargetNode 1%nat) 3 4);
   DragTranslater.mouseout press_on_form;
   DragTranslater.mousemove (event TargetNull (-5) 2);
   DragTranslater.mouseup release;
   DragTranslater.mousemove (event TargetNull 7 7)].

End Sample.

(** * Properties *)

(** ** The embedding at work on the sample page *)

Example Number_toString_negative : Number_toString (-120) = "-120"%string.
Proof. reflexivity. Qed.

Example translate_value_sample :
  DragTranslater.translate_value {| DragTranslater.x := 13; DragTranslater.y := 0 |}
  = "13px 0px"%string.
Proof. reflexivity. Qed.

Example contains_label_in_form : contains_node Sample.page 1%nat 4%nat = true.
Proof. reflexivity. Qed.

Example contains_sibling_form : contains_node Sample.page 1%nat 2%nat = false.
Proof. reflexivity. Qed.

Example contains_of_a_non_node_throws :
  contains (S := unit) Sample.page 1%nat TargetOther tt = Throw TypeError.
Proof. reflexivity. Qed.

Example appendChild_of_an_ancestor_throws :
  appendChild 3%nat 1%nat Sample.page = Throw HierarchyRequestError.
Proof. reflexivity. Qed.

Example bringToFront_sample :
  option_map (λ d, (childNodes d 0%nat, parentNode d 1%nat))
    (exec (FormFronter.bringToFront {| FormFronter.targetForm := 1%nat |}) Sample.page)
  = Some ([2%nat; 1%nat], Some 0%nat).
Proof. reflexivity. Qed.

Example drag_sample :
  option_map (λ s, style_translate (DragTranslater.targetForm s))
    (exec (DragTranslater.dispatch_all Sample.rect Sample.grab_cursor
             (DragTranslater.mousedown Sample.press_on_form
                :: map DragTranslater.mousemove Sample.moves
                ++ [DragTranslater.mouseup Sample.release]))
       Sample.translater)
  = Some "9px 2px"%string.
Proof. vm_compute. reflexivity. Qed.

Example drag_from_label_when_shallow :
  option_map (λ s, style_translate (DragTranslater.targetForm s))
    (exec (DragTranslater.dispatch_all Sample.rect Sample.grab_cursor
             (DragTranslater.mousedown Sample.press_on_label
                :: map DragTranslater.mousemove Sample.moves
                ++ [DragTranslater.mouseup Sample.release]))
       Sample.translater)
  = Some "10px -4px"%string.
Proof. vm_compute. reflexivity. Qed.

Example hover_with_an_empty_class_name_throws :
  DragTranslater.handleMouseOver EmptyString Sample.press_on_form Sample.translater
  = Throw SyntaxError.
Proof. reflexivity. Qed.

Example hover_adds_the_class :
  option_map (λ s, classList (DragTranslater.targetForm s))
    (exec (DragTranslater.handleMouseOver Sample.grab_cursor Sample.press_on_form)
       Sample.translater)
  = Some ["form"; "grab-cursor"]%string.
Proof. reflexivity. Qed.

(** ** The method monad *)

Lemma bind_Ok {S A B : Type} (m : M S A) (k : A → M S B) (s s' : S) (a : A) :
  m s = Ok (a, s') → bind m k s = k a s'.
Proof. intros H. unfold bind. now rewrite H. Qed.

Lemma bind_Throw {S A B : Type} (m : M S A) (k : A → M S B) (s : S) (e : Exception) :
  m s = Throw e → bind m k s = Throw e.
Proof. intros H. unfold bind. now rewrite H. Qed.

(** ** The node tree *)

Section Tree.

Variable d : Document.

Lemma reaches_root_of_root (fuel : nat) (n : node) :
  parentNode d n = None → reaches_root fuel d n = true.
Proof. intros H. destruct fuel; simpl; now rewrite H. Qed.

Lemma acyclic_reaches_root (n : node) :
  acyclic d → reaches_root (size (parents d)) d n = true.
Proof.
  intros Hd. destruct (parentNode d n) as [p|] eqn:Hp.
  - exact (Hd n p Hp).
  - now apply reaches_root_of_root.
Qed.

Lemma climb_sound (fuel : nat) (a n : node) :
  climb fuel d a n = true → inclusive_descendant d a n.
Proof.
  revert n. induction fuel as [|fuel IH]; intros n; simpl.
  - destruct (decide (n = a)) as [->|]; [constructor | discriminate].
  - destruct (decide (n = a)) as [->|]; [constructor |].
    destruct (parentNode d n) as [p|] eqn:Hp; [| discriminate].
    intros H. eapply descendant_child; eauto.
Qed.

Lemma climb_complete (a n : node) :
  inclusive_descendant d a n →
  ∀ fuel, reaches_root fuel d n = true → climb fuel d a n = true.
Proof.
  induction 1 as [|n p Hp _ IH]; intros fuel Hroot.
  - destruct fuel; simpl; now rewrite decide_True.
  - destruct fuel as [|fuel]; simpl in *; rewrite Hp in Hroot; [discriminate |].
    destruct (decide (n = a)); [reflexivity |].
    rewrite Hp. now apply IH.
Qed.

(** On a tree, [contains] decides the inclusive-descendant relation. *)
Lemma contains_node_spec (a n : node) :
  acyclic d → contains_node d a n = true ↔ inclusive_descendant d a n.
Proof.
  intros Hd. split.
  - apply climb_sound.
  - intros H. apply climb_complete; [assumption |].
    now apply acyclic_reaches_root.
Qed.

Lemma contains_node_self (a : node) : contains_node d a a = true.
Proof. unfold contains_node. destruct (size _); simpl; now rewrite decide_True. Qed.

(** A node whose parent descends from it lies on a cycle: its parent chain
    never ends. *)
Lemma cycle_never_reaches_root (c p : node) :
  parentNode d c = Some p →
  inclusive_descendant d c p →
  ∀ fuel n, inclusive_descendant d c n → reaches_root fuel d n = false.
Proof.
  intros Hc Hp. induction fuel as [|fuel IH]; intros n Hn.
  - destruct Hn as [|n q Hq _]; simpl; [now rewrite Hc | now rewrite Hq].
  - destruct Hn as [|n q Hq Hn]; simpl.
    + rewrite Hc. now apply IH.
    + rewrite Hq. now apply IH.
Qed.

(** On a tree, no node is an inclusive ancestor of its own parent. *)
Lemma parent_not_contained (c p : node) :
  acyclic d → parentNode d c = Some p → contains_node d c p = false.
Proof.
  intros Hd Hc. destruct (contains_node d c p) eqn:E; [| reflexivity].
  apply climb_sound in E.
  pose proof (cycle_never_reaches_root c p Hc E (size (parents d)) c
                (descendant_self d c)) as Hcyc.
  rewrite acyclic_reaches_root in Hcyc by assumption. discriminate.
Qed.

End Tree.

(** ** FormFronter *)

Section FormFronterFacts.

Import FormFronter.

Variable d : Document.

Lemma childNodes_detach (c p : node) :
  parentNode d c = Some p →
  childNodes (detach c d) p = filter (λ k, k ≠ c) (childNodes d p).
Proof.
  intros Hc. unfold detach. rewrite Hc. unfold childNodes at 1. simpl.
  now rewrite lookup_insert_eq.
Qed.

Lemma childNodes_attach_last (d0 : Document) (p c : node) :
  childNodes (attach_last p c d0) p = childNodes d0 p ++ [c].
Proof. unfold attach_last, childNodes at 1. simpl. now rewrite lookup_insert_eq. Qed.

Lemma lastChild_attach_last (d0 : Document) (p c : node) :
  lastChild (attach_last p c d0) p = Some c.
Proof. unfold lastChild. rewrite childNodes_attach_last. apply last_snoc. Qed.

Lemma parentNode_attach_last (d0 : Document) (p c : node) :
  parentNode (attach_last p c d0) c = Some p.
Proof. unfold attach_last, parentNode. simpl. apply lookup_insert_eq. Qed.

(** On a tree, re-appending a node to its own parent is accepted. *)
Lemma appendChild_to_parent (c p : node) :
  acyclic d → parentNode d c = Some p →
  appendChild p c d = Ok (c, attach_last p c (detach c d)).
Proof.
  intros Hd Hc. unfold appendChild, bind, get.
  now rewrite (parent_not_contained d c p Hd Hc).
Qed.

Lemma bringToFront_no_parent (this : FormFronter) :
  parentNode d (targetForm this) = None → bringToFront this d = Ok (tt, d).
Proof. intros H. unfold bringToFront, bind, get. now rewrite H. Qed.

Lemma bringToFront_already_last (this : FormFronter) (p : node) :
  parentNode d (targetForm this) = Some p →
  lastChild d p = Some (targetForm this) →
  bringToFront this d = Ok (tt, d).
Proof.
  intros Hp Hl. unfold bringToFront, bind, get. rewrite Hp.
  now rewrite bool_decide_eq_true_2.
Qed.

Lemma bringToFront_not_last (this : FormFronter) (p : node) :
  acyclic d →
  parentNode d (targetForm this) = Some p →
  lastChild d p ≠ Some (targetForm this) →
  bringToFront this d
  = Ok (tt, attach_last p (targetForm this) (detach (targetForm this) d)).
Proof.
  intros Hd Hp Hl. unfold bringToFront. unfold bind at 1, get. rewrite Hp.
  rewrite bool_decide_eq_false_2 by assumption.
  now rewrite (bind_Ok _ _ _ _ _ (appendChild_to_parent _ _ Hd Hp)).
Qed.

Lemma reaches_root_parents (d0 : Document) (fuel : nat) (n : node) :
  parents d0 = parents d → reaches_root fuel d0 n = reaches_root fuel d n.
Proof.
  intros H. revert n. induction fuel as [|fuel IH]; intros n; simpl;
    unfold parentNode; rewrite H; [reflexivity |].
  destruct (parents d !! n); [apply IH | reflexivity].
Qed.

(** Front-bringing changes no parent link: the tree stays a tree. *)
Lemma bringToFront_parents (this : FormFronter) (d' : Document) :
  acyclic d → bringToFront this d = Ok (tt, d') → parents d' = parents d.
Proof.
  intros Hd. destruct (parentNode d (targetForm this)) as [p|] eqn:Hp.
  - destruct (decide (lastChild d p = Some (targetForm this))) as [Hl|Hl].
    + rewrite (bringToFront_already_last this p Hp Hl). now intros [= <-].
    + rewrite (bringToFront_not_last this p Hd Hp Hl). intros [= <-].
      unfold attach_last, detach. rewrite Hp. simpl.
      rewrite insert_delete_eq. now apply insert_id.
  - rewrite (bringToFront_no_parent this Hp). now intros [= <-].
Qed.

Lemma bringToFront_acyclic (this : FormFronter) (d' : Document) :
  acyclic d → bringToFront this d = Ok (tt, d') → acyclic d'.
Proof.
  intros Hd Hrun. pose proof (bringToFront_parents this d' Hd Hrun) as Hp.
  unfold acyclic. rewrite Hp. intros n p Hn.
  rewrite (reaches_root_parents d' _ n Hp). exact (Hd n p Hn).
Qed.

(** The siblings keep their order; the target form moves behind them. *)
Lemma bringToFront_sibling_order (this : FormFronter) (p : node) (d' : Document) :
  acyclic d →
  parentNode d (targetForm this) = Some p →
  lastChild d p ≠ Some (targetForm this) →
  bringToFront this d = Ok (tt, d') →
  childNodes d' p
  = filter (λ k, k ≠ targetForm this) (childNodes d p) ++ [targetForm this].
Proof.
  intros Hd Hp Hl. rewrite (bringToFront_not_last this p Hd Hp Hl).
  intros [= <-]. rewrite childNodes_attach_last. now rewrite childNodes_detach.
Qed.

End FormFronterFacts.

(** C3. For a target form E whose parent P has at least two children, a
    press on E returns normally and leaves E as the last child of P (E
    still being a child of P), and a second press right after it returns
    the tree it was given: nothing is changed. *)
Theorem press_brings_to_front_idempotent
  (this : FormFronter.FormFronter) (event event' : MouseEvent)
  (d : Document) (P : node) :
  acyclic d →
  parentNode d (FormFronter.targetForm this) = Some P →
  (2 ≤ length (childNodes d P))%nat →
  ∃ d' : Document,
    FormFronter.onmousedown this event d = Ok (tt, d') ∧
    parentNode d' (FormFronter.targetForm this) = Some P ∧
    lastChild d' P = Some (FormFronter.targetForm this) ∧
    FormFronter.onmousedown this event' d' = Ok (tt, d').
Proof.
  intros Hd Hp _. unfold FormFronter.onmousedown.
  destruct (decide (lastChild d P = Some (FormFronter.targetForm this))) as [Hl|Hl].
  - exists d. pose proof (bringToFront_already_last d this P Hp Hl) as H.
    repeat split; assumption.
  - eexists. split; [apply (bringToFront_not_last d this P Hd Hp Hl) |].
    pose proof (parentNode_attach_last
                  (detach (FormFronter.targetForm this) d) P
                  (FormFronter.targetForm this)) as Hp'.
    pose proof (lastChild_attach_last
                  (detach (FormFronter.targetForm this) d) P
                  (FormFronter.targetForm this)) as Hl'.
    repeat split; try assumption.
    now apply (bringToFront_already_last _ this P).
Qed.

(** ** The reference engine honours [translate] *)

Section ReferenceEngineFacts.

Import ReferenceEngine.

Lemma span_number_uint (u : Decimal.uint) (rest : string) :
  span_number (NilEmpty.string_of_uint u +:+ String "p" rest)
  = (NilEmpty.string_of_uint u, String "p" rest).
Proof. induction u; simpl; try rewrite IHu; reflexivity. Qed.

Lemma span_number_int (i : Decimal.int) (rest : string) :
  span_number (NilZero.string_of_int i +:+ String "p" rest)
  = (NilZero.string_of_int i, String "p" rest).
Proof.
  destruct i as [u|u]; simpl.
  - destruct u; try exact (span_number_uint _ rest). reflexivity.
  - destruct u; simpl; try reflexivity;
      match goal with
      | |- context [NilEmpty.string_of_uint ?u +:+ _] =>
          now rewrite (span_number_uint u rest)
      end.
Qed.

Lemma to_int_proper (n : Z) :
  Z.to_int n ≠ Decimal.Pos Decimal.Nil ∧ Z.to_int n ≠ Decimal.Neg Decimal.Nil.
Proof.
  destruct n as [|p|p]; simpl; split; try discriminate;
    intros [= H]; now apply (DecimalPos.Unsigned.to_uint_nonnil p).
Qed.

Lemma parse_px_Number (n : Z) (rest : string) :
  parse_px (Number_toString n +:+ "px" +:+ rest) = Some (n, rest).
Proof.
  unfold parse_px, Number_toString.
  change ("px" +:+ rest)%string with (String "p" (String "x" rest)).
  rewrite span_number_int.
  destruct (to_int_proper n) as [Hpos Hneg].
  rewrite (NilZero.isi _ Hpos Hneg).
  now rewrite DecimalZ.of_to.
Qed.

Lemma parse_translate_value (v : DragTranslater.Vector) :
  parse_translate (DragTranslater.translate_value v)
  = Some (DragTranslater.x v, DragTranslater.y v).
Proof.
  unfold parse_translate, DragTranslater.translate_value.
  change ("px " +:+ ?s)%string with ("px" +:+ String " " s)%string.
  rewrite parse_px_Number.
  change (Number_toString ?n +:+ "px")%string
    with (Number_toString n +:+ "px" +:+ EmptyString)%string.
  now rewrite parse_px_Number.
Qed.

(** The reference engine meets the assumption made on rendering engines,
    whatever the layout position of the element. *)
Lemma reference_engine_honours_translate (layout : DOMRect) :
  DragTranslater.honours_translate (getBoundingClientRect layout).
Proof.
  intros el v. unfold getBoundingClientRect.
  change (parse_translate (style_translate (with_style_translate "0px 0px" el)))
    with (Some (0, 0)).
  change (style_translate (with_style_translate ?s el)) with s.
  rewrite parse_translate_value. simpl. split; lia.
Qed.

End ReferenceEngineFacts.

(** ** DragTranslater *)

Section DragTranslaterFacts.

Import DragTranslater.

Variable rect : HTMLElement → DOMRect.
Variable grab_cursor : string.

Lemma plus_assoc (u v w : Vector) : plus (plus u v) w = plus u (plus v w).
Proof. unfold plus. simpl. f_equal; lia. Qed.

Lemma plus_zero_r (v : Vector) : plus v zero = v.
Proof. destruct v. unfold plus. simpl. f_equal; lia. Qed.

Lemma set_style_translate_twice (v w : string) (s : State) :
  set_style_translate w (set_style_translate v s) = set_style_translate w s.
Proof. reflexivity. Qed.

Lemma set_style_translate_current (s : State) :
  set_style_translate (style_translate (targetForm s)) s = s.
Proof. destruct s as [? ? ? [? ? ?] ?]. reflexivity. Qed.

(** The getter returns the displacement the engine shows, and ends in the
    state it started from. *)
Lemma get_currentTranslation_eq (s : State) :
  get_currentTranslation rect s = Ok (displacement rect (targetForm s), s).
Proof.
  unfold get_currentTranslation, bind, get, modify, ret.
  change (set_style_translate ?v (set_style_translate ?w s))
    with (set_style_translate v s).
  now rewrite set_style_translate_current.
Qed.


Lemma displacement_translate_value (v : Vector) (el : HTMLElement) :
  honours_translate rect →
  displacement rect (with_style_translate (translate_value v) el) = v.
Proof.
  intros H. destruct (H el v) as [Hx Hy]. unfold displacement.
  change (with_style_translate "0px 0px" (with_style_translate ?t el))
    with (with_style_translate "0px 0px" el).
  rewrite Hx, Hy. destruct v. simpl. f_equal; lia.
Qed.

Lemma displacement_untranslated (el : HTMLElement) :
  displacement rect (with_style_translate "0px 0px" el) = zero.
Proof.
  unfold displacement, zero.
  change (with_style_translate "0px 0px" (with_style_translate ?t el))
    with (with_style_translate "0px 0px" el).
  f_equal; lia.
Qed.

(** *** Move handling, case by case *)

Lemma handleMouseMove_idle (event : MouseEvent) (s : State) :
  mouseIsDown s = false → handleMouseMove rect event s = Ok (tt, s).
Proof. intros H. unfold handleMouseMove, bind, get. now rewrite H. Qed.

Lemma handleMouseMove_no_press (event : MouseEvent) (s : State) :
  lastMouseDown s = None → handleMouseMove rect event s = Ok (tt, s).
Proof.
  intros H. unfold handleMouseMove, bind, get. rewrite H.
  now destruct (mouseIsDown s).
Qed.

Lemma handleMouseMove_not_a_node (event press : MouseEvent) (s : State) :
  lastMouseDown s = Some press →
  instanceof_Node (target press) = false →
  handleMouseMove rect event s = Ok (tt, s).
Proof.
  intros H Hn. unfold handleMouseMove, bind, get. rewrite H, Hn.
  now destruct (mouseIsDown s).
Qed.

(** A held press that qualifies: the move is added to the displacement the
    getter reads, and the sum written back. *)
Lemma handleMouseMove_qualifying (event press : MouseEvent) (s : State) :
  acyclic (document s) →
  mouseIsDown s = true →
  lastMouseDown s = Some press →
  qualifies (interactionDepth s) (document s) (self (targetForm s)) (target press) →
  handleMouseMove rect event s
  = Ok (tt, set_style_translate
              (translate_value (plus (displacement rect (targetForm s)) (movement event)))
              s).
Proof.
  intros Hd Hdown Hpress Hq. unfold handleMouseMove. unfold bind at 1, get.
  rewrite Hdown, Hpress. cbn [negb].
  destruct (target press) as [o| |] eqn:Ht; simpl in Hq; try contradiction.
  cbn [instanceof_Node negb].
  destruct (interactionDepth s); simpl.
  - subst o. rewrite bool_decide_eq_true_2 by reflexivity. simpl.
    now rewrite (bind_Ok _ _ _ _ _ (get_currentTranslation_eq s)).
  - apply (contains_node_spec _ _ _ Hd) in Hq.
    unfold bind at 1, ret. rewrite Hq. simpl.
    now rewrite (bind_Ok _ _ _ _ _ (get_currentTranslation_eq s)).
Qed.

(** A held press that does not qualify: the move is ignored. *)
Lemma handleMouseMove_not_qualifying (event press : MouseEvent) (s : State) :
  acyclic (document s) →
  lastMouseDown s = Some press →
  ¬ qualifies (interactionDepth s) (document s) (self (targetForm s)) (target press) →
  handleMouseMove rect event s = Ok (tt, s).
Proof.
  intros Hd Hpress Hq. unfold handleMouseMove. unfold bind at 1, get.
  rewrite Hpress. destruct (mouseIsDown s); [| reflexivity]. cbn [negb].
  destruct (target press) as [o| |] eqn:Ht; simpl in Hq; try reflexivity.
  cbn [instanceof_Node negb].
  destruct (interactionDepth s); simpl.
  - now rewrite bool_decide_eq_false_2.
  - unfold bind at 1, ret.
    destruct (contains_node (document s) (self (targetForm s)) o) eqn:E;
      [| reflexivity].
    apply (contains_node_spec _ _ _ Hd) in E. contradiction.
Qed.

(** Whatever the state and the event, move handling returns normally. *)
Lemma handleMouseMove_total (event : MouseEvent) (s : State) :
  ∃ s' : State, handleMouseMove rect event s = Ok (tt, s').
Proof.
  unfold handleMouseMove. unfold bind at 1, get.
  destruct (mouseIsDown s); simpl; [| now eexists].
  destruct (lastMouseDown s) as [press|]; [| now eexists].
  destruct (target press) as [o| |]; simpl; try now eexists.
  destruct (interactionDepth s).
  - destruct (bool_decide _); simpl; [| now eexists].
    rewrite (bind_Ok _ _ _ _ _ (get_currentTranslation_eq s)). now eexists.
  - unfold bind at 1, ret.
    destruct (contains_node _ _ _); simpl; [| now eexists].
    rewrite (bind_Ok _ _ _ _ _ (get_currentTranslation_eq s)). now eexists.
Qed.

(** *** Sequences of events *)

Lemma dispatch_all_app (evs evs' : list Event) (s : State) :
  dispatch_all rect grab_cursor (evs ++ evs') s
  = (dispatch_all rect grab_cursor evs >> dispatch_all rect grab_cursor evs') s.
Proof.
  revert s. induction evs as [|ev evs IH]; intros s; simpl.
  - reflexivity.
  - unfold bind.
    destruct (dispatch rect grab_cursor ev s) as [[[] s1]|e]; [| reflexivity].
    rewrite IH. reflexivity.
Qed.

Lemma handleMouseDown_eq (press : MouseEvent) (s : State) :
  handleMouseDown press s = Ok (tt, set_mouseIsDown true (set_lastMouseDown press s)).
Proof. reflexivity. Qed.

Lemma handleMouseUp_eq (release : MouseEvent) (s : State) :
  handleMouseUp release s = Ok (tt, set_mouseIsDown false s).
Proof. reflexivity. Qed.

(** While a qualifying press is held, the moves add up. *)
Lemma moves_accumulate (press : MouseEvent) (moves : list MouseEvent) :
  honours_translate rect →
  ∀ s : State,
    acyclic (document s) →
    mouseIsDown s = true →
    lastMouseDown s = Some press →
    qualifies (interactionDepth s) (document s) (self (targetForm s)) (target press) →
    ∃ value : string,
      dispatch_all rect grab_cursor (map mousemove moves) s
      = Ok (tt, set_style_translate value s) ∧
      displacement rect (with_style_translate value (targetForm s))
      = plus (displacement rect (targetForm s)) (total_movement moves).
Proof.
  intros Hrect. induction moves as [|move moves IH]; intros s Hd Hdown Hpress Hq.
  - exists (style_translate (targetForm s)). simpl.
    rewrite set_style_translate_current. split; [reflexivity |].
    rewrite plus_zero_r. now destruct (targetForm s).
  - simpl map. simpl dispatch_all. simpl dispatch.
    rewrite (bind_Ok _ _ _ _ _ (handleMouseMove_qualifying move press s Hd Hdown Hpress Hq)).
    match goal with
    | |- context [dispatch_all _ _ _ ?s1] =>
        destruct (IH s1 Hd Hdown Hpress Hq) as (value & Hrun & Hsum)
    end.
    exists value. split; [exact Hrun |].
    cbn [targetForm set_style_translate set_targetForm] in Hsum.
    change (with_style_translate value (with_style_translate ?t ?el))
      with (with_style_translate value el) in Hsum.
    rewrite Hsum. rewrite displacement_translate_value by assumption.
    apply plus_assoc.
Qed.

(** While a press that does not qualify is held, the moves are ignored. *)
Lemma moves_ignored (press : MouseEvent) (moves : list MouseEvent) (s : State) :
  acyclic (document s) →
  lastMouseDown s = Some press →
  ¬ qualifies (interactionDepth s) (document s) (self (targetForm s)) (target press) →
  dispatch_all rect grab_cursor (map mousemove moves) s = Ok (tt, s).
Proof.
  intros Hd Hpress Hq. induction moves as [|move moves IH]; simpl.
  - reflexivity.
  - now rewrite (bind_Ok _ _ _ _ _ (handleMouseMove_not_qualifying move press s Hd Hpress Hq)).
Qed.

(** A whole drag whose press qualifies. *)
Lemma drag_qualifying (press release : MouseEvent) (moves : list MouseEvent) (s : State) :
  honours_translate rect →
  acyclic (document s) →
  qualifies (interactionDepth s) (document s) (self (targetForm s)) (target press) →
  ∃ value : string,
    dispatch_all rect grab_cursor
      (mousedown press :: map mousemove moves ++ [mouseup release]) s
    = Ok (tt, set_mouseIsDown false
                (set_style_translate value (set_lastMouseDown press s))) ∧
    displacement rect (with_style_translate value (targetForm s))
    = plus (displacement rect (targetForm s)) (total_movement moves).
Proof.
  intros Hrect Hd Hq.
  destruct (moves_accumulate press moves Hrect
              (set_mouseIsDown true (set_lastMouseDown press s)) Hd eq_refl eq_refl Hq)
    as (value & Hrun & Hsum).
  exists value. split; [| exact Hsum].
  cbn [dispatch_all dispatch].
  rewrite (bind_Ok _ _ _ _ _ (handleMouseDown_eq press s)).
  rewrite dispatch_all_app. rewrite (bind_Ok _ _ _ _ _ Hrun). reflexivity.
Qed.

(** A whole drag whose press does not qualify. *)
Lemma drag_not_qualifying (press release : MouseEvent) (moves : list MouseEvent) (s : State) :
  acyclic (document s) →
  ¬ qualifies (interactionDepth s) (document s) (self (targetForm s)) (target press) →
  dispatch_all rect grab_cursor
    (mousedown press :: map mousemove moves ++ [mouseup release]) s
  = Ok (tt, set_mouseIsDown false (set_lastMouseDown press s)).
Proof.
  intros Hd Hq. cbn [dispatch_all dispatch].
  rewrite (bind_Ok _ _ _ _ _ (handleMouseDown_eq press s)).
  rewrite dispatch_all_app.
  rewrite (bind_Ok _ _ _ _ _
             (moves_ignored press moves
                (set_mouseIsDown true (set_lastMouseDown press s)) Hd eq_refl Hq)).
  reflexivity.
Qed.

Lemma eval_then_get (m : M State unit) (s s' : State) :
  m s = Ok (tt, s') →
  eval (m >> get_currentTranslation rect) s = Some (displacement rect (targetForm s')).
Proof.
  intros H. unfold eval. rewrite (bind_Ok _ _ _ _ _ H).
  now rewrite get_currentTranslation_eq.
Qed.

Lemma eval_get (s : State) :
  eval (get_currentTranslation rect) s = Some (displacement rect (targetForm s)).
Proof. unfold eval. now rewrite get_currentTranslation_eq. Qed.


End DragTranslaterFacts.

(** * The claims *)

Section Claims.

Import DragTranslater.

Variable rect : HTMLElement → DOMRect.
Variable grab_cursor : string.




(** C6. Whatever the translation accumulated so far and whether or not a
    press is held, after [untranslate] the translation reads as the zero
    vector, and [mouseIsDown] and [lastMouseDown] are what they were. *)
Theorem untranslate_resets (s : State) :
  ∃ s' : State,
    untranslate s = Ok (tt, s') ∧
    eval (get_currentTranslation rect) s' = Some zero ∧
    mouseIsDown s' = mouseIsDown s ∧
    lastMouseDown s' = lastMouseDown s.
Proof.
  exists (set_style_translate "0px 0px" s). repeat split.
  rewrite eval_get. f_equal. apply displacement_untranslated.
Qed.

(** C7. In a state where no press is held ([mouseIsDown] false), handling
    a move event changes nothing: the [translate] style of the target form,
    like the rest of the state, is what it was. *)
Theorem idle_move_changes_nothing (event : MouseEvent) (s : State) :
  mouseIsDown s = false →
  handleMouseMove rect event s = Ok (tt, s).
Proof. apply handleMouseMove_idle. Qed.

(** No press is held before the first press, nor after a release. *)
Lemma move_before_any_press (event : MouseEvent) (form : HTMLElement) (d : Document) :
  handleMouseMove rect event (new form d) = Ok (tt, new form d).
Proof. now apply handleMouseMove_idle. Qed.

Lemma move_after_release (release event : MouseEvent) (s : State) :
  (handleMouseUp release >> handleMouseMove rect event) s = handleMouseUp release s.
Proof.
  rewrite (bind_Ok _ _ _ _ _ (handleMouseUp_eq release s)).
  now rewrite handleMouseMove_idle.
Qed.

(** C8. Every press is recorded and marks the mouse as down, wherever it
    landed and whatever the state; whether it qualifies is only examined
    when a move is handled, with the [interactionDepth] of that moment:
    for a held press on a strict descendant of the target form, a move is
    ignored if the depth has been set to [shallow] and is accumulated if
    it has been set to [deep]. *)
Theorem press_recorded_gate_deferred :
  (∀ (press : MouseEvent) (s : State),
     ∃ s' : State,
       handleMouseDown press s = Ok (tt, s') ∧
       lastMouseDown s' = Some press ∧
       mouseIsDown s' = true ∧
       interactionDepth s' = interactionDepth s ∧
       targetForm s' = targetForm s ∧
       document s' = document s) ∧
  (∀ (press move : MouseEvent) (origin : node) (s s' : State),
     acyclic (document s) →
     target press = TargetNode origin →
     inclusive_descendant (document s) (self (targetForm s)) origin →
     origin ≠ self (targetForm s) →
     handleMouseDown press s = Ok (tt, s') →
     handleMouseMove rect move (set_interactionDepth shallow s')
     = Ok (tt, set_interactionDepth shallow s') ∧
     handleMouseMove rect move (set_interactionDepth deep s')
     = Ok (tt, set_style_translate
                 (translate_value
                    (plus (displacement rect (targetForm s)) (movement move)))
                 (set_interactionDepth deep s'))).
Proof.
  split.
  - intros press s. eexists. split; [reflexivity |]. repeat split.
  - intros press move origin s s' Hd Ht Hdesc Hne Hdown.
    rewrite handleMouseDown_eq in Hdown by assumption. injection Hdown as <-.
    split.
    + apply (handleMouseMove_not_qualifying rect move press); try assumption.
      * reflexivity.
      * rewrite Ht. simpl. exact Hne.
    + refine (handleMouseMove_qualifying rect move press
                (set_interactionDepth deep
                   (set_mouseIsDown true (set_lastMouseDown press s)))
                Hd eq_refl eq_refl _).
      rewrite Ht. exact Hdesc.
Qed.

(** C9. Reading [currentTranslation] returns normally and ends in the state
    it started from: the [translate] style of the target form, forced to
    [0px 0px] during the measurement, is the string it was before the
    read, and nothing else has changed. *)
Theorem reading_restores_style (s : State) :
  ∃ (v : Vector) (s' : State),
    get_currentTranslation rect s = Ok (v, s') ∧
    style_translate (targetForm s') = style_translate (targetForm s) ∧
    s' = s.
Proof.
  exists (displacement rect (targetForm s)), s.
  split; [apply get_currentTranslation_eq | split; reflexivity].
Qed.

(** C10. With [interactionDepth] set to [shallow], move handling in the
    current revision and in the first revision do the same: from states
    with the same fields, either both leave the state as it is or both
    write the same [translate] value. *)
Theorem revisions_agree_when_shallow (event : MouseEvent) (s : State) :
  interactionDepth s = shallow →
  ∃ s' : State,
    handleMouseMove rect event s = Ok (tt, s') ∧
    DragTranslaterV1.handleMouseMove rect event (forget_depth s)
    = Ok (tt, forget_depth s') ∧
    interactionDepth s' = interactionDepth s ∧
    document s' = document s.
Proof.
  destruct s as [pressed down depth form d]. simpl. intros ->.
  unfold handleMouseMove, DragTranslaterV1.handleMouseMove, forget_depth,
    bind, get, ret.
  cbn [mouseIsDown lastMouseDown interactionDepth targetForm
       DragTranslaterV1.mouseIsDown DragTranslaterV1.lastMouseDown
       DragTranslaterV1.targetForm].
  destruct down; cbn [negb];
    [| eexists; split; [reflexivity | repeat split]].
  destruct pressed as [press|];
    [| eexists; split; [reflexivity | repeat split]].
  destruct (target press) as [o| |]; cbn [instanceof_Node strict_equal negb];
    try (eexists; split; [reflexivity | repeat split]).
  destruct (bool_decide (o = self form)); cbn [negb];
    eexists; (split; [reflexivity | repeat split]).
Qed.

End Claims.

(** C4. The handlers of both components return normally.  A press on a
    target form without a parent node returns the tree it was given; on a
    tree, a press on any target form returns; the mouse down, move and up
    handlers of the drag translater return in every state, and so do the
    hover handlers when the class name is a token; a move with no recorded
    press, or with a recorded press whose origin is not a node, returns the
    state it was given. *)
Theorem handlers_never_throw (rect : HTMLElement → DOMRect) (grab_cursor : string) :
  (∀ (this : FormFronter.FormFronter) (event : MouseEvent) (d : Document),
     parentNode d (FormFronter.targetForm this) = None →
     FormFronter.onmousedown this event d = Ok (tt, d)) ∧
  (∀ (this : FormFronter.FormFronter) (event : MouseEvent) (d : Document),
     acyclic d →
     ∃ d' : Document, FormFronter.onmousedown this event d = Ok (tt, d')) ∧
  (∀ (event : MouseEvent) (s : DragTranslater.State),
     (∃ s', DragTranslater.handleMouseDown event s = Ok (tt, s')) ∧
     (∃ s', DragTranslater.handleMouseMove rect event s = Ok (tt, s')) ∧
     (∃ s', DragTranslater.handleMouseUp event s = Ok (tt, s'))) ∧
  (DragTranslater.valid_token grab_cursor →
   ∀ (event : MouseEvent) (s : DragTranslater.State),
     (∃ s', DragTranslater.handleMouseOver grab_cursor event s = Ok (tt, s')) ∧
     (∃ s', DragTranslater.handleMouseOut grab_cursor event s = Ok (tt, s'))) ∧
  (∀ (event : MouseEvent) (s : DragTranslater.State),
     DragTranslater.lastMouseDown s = None →
     DragTranslater.handleMouseMove rect event s = Ok (tt, s)) ∧
  (∀ (event press : MouseEvent) (s : DragTranslater.State),
     DragTranslater.lastMouseDown s = Some press →
     instanceof_Node (target press) = false →
     DragTranslater.handleMouseMove rect event s = Ok (tt, s)).
Proof.
  split; [| split; [| split; [| split; [| split]]]].
  - intros this event d. apply bringToFront_no_parent.
  - intros this event d Hd. unfold FormFronter.onmousedown.
    destruct (parentNode d (FormFronter.targetForm this)) as [p|] eqn:Hp.
    + destruct (decide (lastChild d p = Some (FormFronter.targetForm this))) as [Hl|Hl].
      * exists d. now apply (bringToFront_already_last d this p).
      * eexists. now apply (bringToFront_not_last d this p).
    + exists d. now apply bringToFront_no_parent.
  - intros event s. split; [| split].
    + eexists. reflexivity.
    + apply handleMouseMove_total.
    + eexists. reflexivity.
  - intros [Hne Hws] event s.
    unfold DragTranslater.handleMouseOver, DragTranslater.handleMouseOut.
    unfold bind at 1 3, get.
    destruct (strict_equal _ _); [| split; eexists; reflexivity].
    unfold bind, validate_token.
    rewrite bool_decide_eq_false_2 by assumption. rewrite Hws.
    split; eexists; reflexivity.
  - intros event s. apply handleMouseMove_no_press.
  - intros event press s. apply handleMouseMove_not_a_node.
Qed.

(** * The claims at the sample page *)

Lemma sample_page_acyclic : acyclic Sample.page.
Proof. apply (bool_decide_unpack _). vm_compute. exact I. Qed.

Lemma sample_label_inside_form :
  inclusive_descendant Sample.page 1%nat 4%nat.
Proof.
  apply (contains_node_spec _ _ _ sample_page_acyclic). vm_compute. reflexivity.
Qed.



Lemma press_brings_to_front_idempotent_witness :
  ∃ d' : Document,
    FormFronter.onmousedown {| FormFronter.targetForm := 1%nat |}
      Sample.press_on_form Sample.page = Ok (tt, d') ∧
    parentNode d' 1%nat = Some 0%nat ∧
    lastChild d' 0%nat = Some 1%nat ∧
    FormFronter.onmousedown {| FormFronter.targetForm := 1%nat |}
      Sample.press_on_label d' = Ok (tt, d').
Proof.
  apply (press_brings_to_front_idempotent
           {| FormFronter.targetForm := 1%nat |}
           Sample.press_on_form Sample.press_on_label Sample.page 0%nat).
  - exact sample_page_acyclic.
  - reflexivity.
  - vm_compute. lia.
Defined.

Lemma handlers_never_throw_witness :
  (∃ d' : Document,
     FormFronter.onmousedown {| FormFronter.targetForm := 1%nat |}
       Sample.press_on_form Sample.page = Ok (tt, d')) ∧
  (∃ s', DragTranslater.handleMouseOver Sample.grab_cursor Sample.press_on_form
           Sample.translater = Ok (tt, s')) ∧
  FormFronter.onmousedown {| FormFronter.targetForm := 0%nat |}
    Sample.press_on_form Sample.page = Ok (tt, Sample.page) ∧
  DragTranslater.handleMouseMove Sample.rect Sample.release
    (DragTranslater.set_mouseIsDown true
       (DragTranslater.set_lastMouseDown Sample.press_on_window Sample.translater))
  = Ok (tt, DragTranslater.set_mouseIsDown true
              (DragTranslater.set_lastMouseDown Sample.press_on_window
                 Sample.translater)).
Proof.
  destruct (handlers_never_throw Sample.rect Sample.grab_cursor)
    as (Hroot & Hfront & _ & Hhover & _ & Hother).
  split; [| split; [| split]].
  - apply Hfront. exact sample_page_acyclic.
  - apply Hhover. split; [discriminate | reflexivity].
  - apply Hroot. reflexivity.
  - apply (Hother _ Sample.press_on_window); reflexivity.
Defined.


Lemma idle_move_changes_nothing_witness :
  DragTranslater.handleMouseMove Sample.rect (Sample.event TargetNull 3 4)
    Sample.translater
  = Ok (tt, Sample.translater).
Proof. apply (idle_move_changes_nothing Sample.rect). reflexivity. Defined.

Lemma press_recorded_gate_deferred_witness :
  let held :=
    DragTranslater.set_mouseIsDown true
      (DragTranslater.set_lastMouseDown Sample.press_on_label Sample.translater) in
  DragTranslater.handleMouseMove Sample.rect (Sample.event TargetNull 3 4)
    (DragTranslater.set_interactionDepth DragTranslater.shallow held)
  = Ok (tt, DragTranslater.set_interactionDepth DragTranslater.shallow held) ∧
  DragTranslater.handleMouseMove Sample.rect (Sample.event TargetNull 3 4)
    (DragTranslater.set_interactionDepth DragTranslater.deep held)
  = Ok (tt, DragTranslater.set_style_translate "13px 0px"
              (DragTranslater.set_interactionDepth DragTranslater.deep held)).
Proof.
  destruct (press_recorded_gate_deferred Sample.rect) as [_ Hgate].
  apply (Hgate Sample.press_on_label (Sample.event TargetNull 3 4) 4%nat
           Sample.translater).
  - exact sample_page_acyclic.
  - reflexivity.
  - exact sample_label_inside_form.
  - simpl. lia.
  - reflexivity.
Defined.

Lemma revisions_agree_when_shallow_witness :
  ∃ s' : DragTranslater.State,
    DragTranslater.handleMouseMove Sample.rect (Sample.event TargetNull 3 4)
      (DragTranslater.set_mouseIsDown true
         (DragTranslater.set_lastMouseDown Sample.press_on_form Sample.translater))
    = Ok (tt, s') ∧
    DragTranslaterV1.handleMouseMove Sample.rect (Sample.event TargetNull 3 4)
      (forget_depth
         (DragTranslater.set_mouseIsDown true
            (DragTranslater.set_lastMouseDown Sample.press_on_form Sample.translater)))
    = Ok (tt, forget_depth s') ∧
    DragTranslater.interactionDepth s' = DragTranslater.shallow ∧
    DragTranslater.document s' = Sample.page.
Proof.
  apply (revisions_agree_when_shallow Sample.rect (Sample.event TargetNull 3 4)
           (DragTranslater.set_mouseIsDown true
              (DragTranslater.set_lastMouseDown Sample.press_on_form
                 Sample.translater))).
  reflexivity.
Defined.

(** * Further properties *)

(** ** FormFronter: what a press does to the tree *)

Section FrontBringing.

Import FormFronter.

Lemma filter_other_id (c : node) (l : list node) :
  c ∉ l → filter (λ k, k ≠ c) l = l.
Proof.
  induction l as [|k l IH]; intros Hc; [reflexivity |].
  apply not_elem_of_cons in Hc as [Hk Hl].
  rewrite filter_cons_True by congruence. now rewrite IH.
Qed.

Lemma filter_other_last (c : node) (l : list node) :
  NoDup l → last l = Some c → filter (λ k, k ≠ c) l ++ [c] = l.
Proof.
  intros Hl Hc. apply last_Some in Hc as [l' ->].
  apply NoDup_app in Hl as (_ & Hl' & _).
  rewrite filter_app. rewrite filter_other_id.
  - rewrite filter_cons_False by (intros H; now apply H). now rewrite app_nil_r.
  - intros Hin. apply (Hl' c Hin). now left.
Qed.

Lemma filter_other_Permutation (c : node) (l : list node) :
  NoDup l → c ∈ l → filter (λ k, k ≠ c) l ++ [c] ≡ₚ l.
Proof.
  induction l as [|k l IH]; intros Hl Hc.
  - now apply elem_of_nil in Hc.
  - apply NoDup_cons in Hl as [Hk Hl]. destruct (decide (k = c)) as [->|Hne].
    + rewrite filter_cons_False by (intros H; now apply H).
      rewrite filter_other_id by assumption.
      symmetry. apply Permutation_cons_append.
    + rewrite filter_cons_True by assumption. simpl. constructor.
      apply IH; [assumption |].
      apply elem_of_cons in Hc as [->|Hc]; [contradiction | assumption].
Qed.

Lemma childNodes_reattached_elsewhere (d : Document) (c p q : node) :
  parentNode d c = Some p → q ≠ p →
  childNodes (attach_last p c (detach c d)) q = childNodes d q.
Proof.
  intros Hc Hq. unfold attach_last, detach. rewrite Hc.
  unfold childNodes at 1. simpl.
  rewrite lookup_insert_ne by congruence.
  now rewrite lookup_insert_ne by congruence.
Qed.

(** What a press makes of a tree whose child lists have no duplicates. *)
Lemma bringToFront_outcome (this : FormFronter) (d : Document) (p : node) :
  acyclic d →
  parentNode d (targetForm this) = Some p →
  NoDup (childNodes d p) →
  ∃ d' : Document,
    bringToFront this d = Ok (tt, d') ∧
    parents d' = parents d ∧
    childNodes d' p
    = filter (λ k, k ≠ targetForm this) (childNodes d p) ++ [targetForm this] ∧
    ∀ q : node, q ≠ p → childNodes d' q = childNodes d q.
Proof.
  intros Hd Hp Hnd.
  destruct (decide (lastChild d p = Some (targetForm this))) as [Hl|Hl].
  - exists d. split; [now apply (bringToFront_already_last d this p) |].
    split; [reflexivity |]. split; [| reflexivity].
    symmetry. now apply filter_other_last.
  - pose proof (bringToFront_not_last d this p Hd Hp Hl) as Hrun.
    eexists. split; [exact Hrun |]. split; [| split].
    + exact (bringToFront_parents d this _ Hd Hrun).
    + exact (bringToFront_sibling_order d this p _ Hd Hp Hl Hrun).
    + intros q Hq. now apply childNodes_reattached_elsewhere.
Qed.

End FrontBringing.

(** X1. A press moves the target form behind its siblings and keeps the
    siblings in the order they were in. *)
Theorem press_keeps_sibling_order
  (this : FormFronter.FormFronter) (event : MouseEvent) (d : Document) (P : node) :
  acyclic d →
  parentNode d (FormFronter.targetForm this) = Some P →
  NoDup (childNodes d P) →
  ∃ d' : Document,
    FormFronter.onmousedown this event d = Ok (tt, d') ∧
    childNodes d' P
    = filter (λ k, k ≠ FormFronter.targetForm this) (childNodes d P)
      ++ [FormFronter.targetForm this].
Proof.
  intros Hd Hp Hnd.
  destruct (bringToFront_outcome this d P Hd Hp Hnd) as (d' & Hrun & _ & Hkids & _).
  now exists d'.
Qed.

(** X2. A press loses no child and adds none: the children of the parent
    after the press are the children before it, rearranged. *)
Theorem press_permutes_children
  (this : FormFronter.FormFronter) (event : MouseEvent) (d : Document) (P : node) :
  acyclic d →
  parentNode d (FormFronter.targetForm this) = Some P →
  NoDup (childNodes d P) →
  FormFronter.targetForm this ∈ childNodes d P →
  ∃ d' : Document,
    FormFronter.onmousedown this event d = Ok (tt, d') ∧
    childNodes d' P ≡ₚ childNodes d P.
Proof.
  intros Hd Hp Hnd Hin.
  destruct (bringToFront_outcome this d P Hd Hp Hnd) as (d' & Hrun & _ & Hkids & _).
  exists d'. split; [exact Hrun |]. rewrite Hkids.
  now apply filter_other_Permutation.
Qed.

(** X3. A press changes no parent link and no child list but the one of
    the parent of the target form, and leaves a tree a tree. *)
Theorem press_touches_only_the_parent
  (this : FormFronter.FormFronter) (event : MouseEvent) (d : Document) :
  acyclic d →
  ∃ d' : Document,
    FormFronter.onmousedown this event d = Ok (tt, d') ∧
    parents d' = parents d ∧
    acyclic d' ∧
    ∀ q : node,
      parentNode d (FormFronter.targetForm this) ≠ Some q →
      childNodes d' q = childNodes d q.
Proof.
  intros Hd. unfold FormFronter.onmousedown.
  assert (Hsame : ∃ d' : Document,
            FormFronter.bringToFront this d = Ok (tt, d') ∧
            ∀ q : node,
              parentNode d (FormFronter.targetForm this) ≠ Some q →
              childNodes d' q = childNodes d q).
  { destruct (parentNode d (FormFronter.targetForm this)) as [p|] eqn:Hp.
    - destruct (decide (lastChild d p = Some (FormFronter.targetForm this)))
        as [Hl|Hl].
      + exists d. split; [now apply (bringToFront_already_last d this p) | reflexivity].
      + eexists. split; [now apply (bringToFront_not_last d this p) |].
        intros q Hq. apply childNodes_reattached_elsewhere; congruence.
    - exists d. split; [now apply bringToFront_no_parent | reflexivity]. }
  destruct Hsame as (d' & Hrun & Hkids). exists d'.
  split; [exact Hrun |]. split; [| split].
  - exact (bringToFront_parents d this d' Hd Hrun).
  - exact (bringToFront_acyclic d this d' Hd Hrun).
  - exact Hkids.
Qed.

(** X4. Presses on two forms of the same parent, one after the other,
    leave the two forms last, in the order they were pressed, behind the
    other children in their former order. *)
Theorem presses_stack_in_order
  (first second : FormFronter.FormFronter) (event event' : MouseEvent)
  (d : Document) (P : node) :
  acyclic d →
  parentNode d (FormFronter.targetForm first) = Some P →
  parentNode d (FormFronter.targetForm second) = Some P →
  FormFronter.targetForm first ≠ FormFronter.targetForm second →
  NoDup (childNodes d P) →
  ∃ d' d'' : Document,
    FormFronter.onmousedown first event d = Ok (tt, d') ∧
    FormFronter.onmousedown second event' d' = Ok (tt, d'') ∧
    childNodes d'' P
    = filter (λ k, k ≠ FormFronter.targetForm second ∧
                   k ≠ FormFronter.targetForm first) (childNodes d P)
      ++ [FormFronter.targetForm first; FormFronter.targetForm second].
Proof.
  intros Hd Hp1 Hp2 Hne Hnd. unfold FormFronter.onmousedown.
  destruct (bringToFront_outcome first d P Hd Hp1 Hnd)
    as (d' & Hrun & Hparents & Hkids & _).
  assert (Hd' : acyclic d') by exact (bringToFront_acyclic d first d' Hd Hrun).
  assert (Hp2' : parentNode d' (FormFronter.targetForm second) = Some P)
    by (unfold parentNode; now rewrite Hparents).
  assert (Hnd' : NoDup (childNodes d' P)).
  { rewrite Hkids. apply NoDup_app. split; [now apply NoDup_filter |].
    split; [| apply NoDup_singleton].
    intros k Hk. apply list_elem_of_filter in Hk as [Hk _].
    intros Hin. apply list_elem_of_singleton in Hin. contradiction. }
  destruct (bringToFront_outcome second d' P Hd' Hp2' Hnd')
    as (d'' & Hrun' & _ & Hkids' & _).
  exists d', d''. split; [exact Hrun |]. split; [exact Hrun' |].
  rewrite Hkids', Hkids. rewrite filter_app, list_filter_filter.
  rewrite filter_cons_True by assumption. rewrite filter_nil.
  now rewrite <- app_assoc.
Qed.

(** ** DragTranslater: sequences of events *)

Section Sessions.

Import DragTranslater.

Variable rect : HTMLElement → DOMRect.
Variable grab_cursor : string.

(** Move handling writes the [translate] style of the target form, or
    nothing at all. *)
Lemma handleMouseMove_writes_style (event : MouseEvent) (s : State) :
  ∃ value : string,
    handleMouseMove rect event s = Ok (tt, set_style_translate value s).
Proof.
  assert (Hskip : ∃ value : string, Ok (tt, s) = Ok (tt, set_style_translate value s)).
  { exists (style_translate (targetForm s)). now rewrite set_style_translate_current. }
  unfold handleMouseMove. unfold bind at 1, get.
  destruct (mouseIsDown s); cbn [negb]; [| exact Hskip].
  destruct (lastMouseDown s) as [press|]; [| exact Hskip].
  destruct (target press) as [o| |]; cbn [instanceof_Node negb]; try exact Hskip.
  destruct (interactionDepth s).
  - cbn [strict_equal]. destruct (bool_decide _); cbn [negb]; [| exact Hskip].
    rewrite (bind_Ok _ _ _ _ _ (get_currentTranslation_eq rect s)). now eexists.
  - unfold bind at 1. cbn [contains]. unfold ret at 1.
    destruct (contains_node _ _ _); cbn [negb]; [| exact Hskip].
    rewrite (bind_Ok _ _ _ _ _ (get_currentTranslation_eq rect s)). now eexists.
Qed.

Lemma handleMouseOver_eq (event : MouseEvent) (s : State) :
  valid_token grab_cursor →
  handleMouseOver grab_cursor event s
  = Ok (tt, if strict_equal (target event) (self (targetForm s))
            then set_classList
                   (DOMTokenList_add grab_cursor (classList (targetForm s))) s
            else s).
Proof.
  intros [Hne Hws]. unfold handleMouseOver. unfold bind at 1, get.
  destruct (strict_equal _ _); [| reflexivity].
  unfold bind, validate_token.
  rewrite bool_decide_eq_false_2 by assumption. now rewrite Hws.
Qed.

Lemma handleMouseOut_eq (event : MouseEvent) (s : State) :
  valid_token grab_cursor →
  handleMouseOut grab_cursor event s
  = Ok (tt, if strict_equal (target event) (self (targetForm s))
            then set_classList
                   (DOMTokenList_remove grab_cursor (classList (targetForm s))) s
            else s).
Proof.
  intros [Hne Hws]. unfold handleMouseOut. unfold bind at 1, get.
  destruct (strict_equal _ _); [| reflexivity].
  unfold bind, validate_token.
  rewrite bool_decide_eq_false_2 by assumption. now rewrite Hws.
Qed.

(** One event: what it leaves alone, and what it does to the press. *)
Lemma dispatch_summary (ev : Event) (s : State) :
  valid_token grab_cursor →
  ∃ s' : State,
    dispatch rect grab_cursor ev s = Ok (tt, s') ∧
    document s' = document s ∧
    interactionDepth s' = interactionDepth s ∧
    self (targetForm s') = self (targetForm s) ∧
    mouseIsDown s' = held_step (mouseIsDown s) ev ∧
    lastMouseDown s' = recorded_step (lastMouseDown s) ev.
Proof.
  intros Htoken. destruct ev as [event|event|event|event|event]; cbn [dispatch].
  - eexists. split; [reflexivity |]. repeat split.
  - destruct (handleMouseMove_writes_style event s) as [value ->].
    eexists. split; [reflexivity |]. repeat split.
  - eexists. split; [reflexivity |]. repeat split.
  - rewrite (handleMouseOver_eq event s Htoken).
    eexists. split; [reflexivity |]. destruct (strict_equal _ _); repeat split.
  - rewrite (handleMouseOut_eq event s Htoken).
    eexists. split; [reflexivity |]. destruct (strict_equal _ _); repeat split.
Qed.

Lemma dispatch_all_summary (evs : list Event) :
  valid_token grab_cursor →
  ∀ s : State,
    ∃ s' : State,
      dispatch_all rect grab_cursor evs s = Ok (tt, s') ∧
      document s' = document s ∧
      interactionDepth s' = interactionDepth s ∧
      self (targetForm s') = self (targetForm s) ∧
      mouseIsDown s' = held_after evs (mouseIsDown s) ∧
      lastMouseDown s' = recorded_after evs (lastMouseDown s).
Proof.
  intros Htoken. induction evs as [|ev evs IH]; intros s.
  - exists s. repeat split.
  - destruct (dispatch_summary ev s Htoken)
      as (s1 & Hrun & Hdoc & Hdepth & Hself & Hheld & Hrec).
    destruct (IH s1) as (s' & Hrun' & Hdoc' & Hdepth' & Hself' & Hheld' & Hrec').
    exists s'. cbn [dispatch_all]. rewrite (bind_Ok _ _ _ _ _ Hrun).
    split; [exact Hrun' |].
    unfold held_after, recorded_after in *. cbn [fold_left].
    rewrite <- Hheld, <- Hrec. repeat split; congruence.
Qed.

End Sessions.

(** X5. Whatever events arrive, in whatever order, they are all handled
    without an exception, and they leave the node tree, the interaction
    depth and the identity of the target form as they were. *)
Theorem events_preserve_the_page
  (rect : HTMLElement → DOMRect) (grab_cursor : string)
  (evs : list DragTranslater.Event) (s : DragTranslater.State) :
  DragTranslater.valid_token grab_cursor →
  ∃ s' : DragTranslater.State,
    DragTranslater.dispatch_all rect grab_cursor evs s = Ok (tt, s') ∧
    DragTranslater.document s' = DragTranslater.document s ∧
    DragTranslater.interactionDepth s' = DragTranslater.interactionDepth s ∧
    self (DragTranslater.targetForm s') = self (DragTranslater.targetForm s).
Proof.
  intros Htoken.
  destruct (dispatch_all_summary rect grab_cursor evs Htoken s)
    as (s' & Hrun & Hdoc & Hdepth & Hself & _).
  now exists s'.
Qed.

(** X6. After any sequence of events the mouse counts as down exactly when
    the latest of the mouse down and mouse up events was a mouse down (as
    before the sequence when there was none), and the press on record is
    the event of the latest mouse down. *)
Theorem press_state_follows_the_buttons
  (rect : HTMLElement → DOMRect) (grab_cursor : string)
  (evs : list DragTranslater.Event) (s : DragTranslater.State) :
  DragTranslater.valid_token grab_cursor →
  ∃ s' : DragTranslater.State,
    DragTranslater.dispatch_all rect grab_cursor evs s = Ok (tt, s') ∧
    DragTranslater.mouseIsDown s'
    = DragTranslater.held_after evs (DragTranslater.mouseIsDown s) ∧
    DragTranslater.lastMouseDown s'
    = DragTranslater.recorded_after evs (DragTranslater.lastMouseDown s).
Proof.
  intros Htoken.
  destruct (dispatch_all_summary rect grab_cursor evs Htoken s)
    as (s' & Hrun & _ & _ & _ & Hheld & Hrec).
  now exists s'.
Qed.

(** ** DragTranslater: how drags compose *)

Section Drags.

Import DragTranslater.

Variable rect : HTMLElement → DOMRect.
Variable grab_cursor : string.



(** The origin of a press that is not a node inside the form qualifies in
    neither mode. *)
Lemma outside_never_qualifies
  (depth : InteractionDepth) (d : Document) (form : node) (origin : EventTarget) :
  (∀ o : node, origin = TargetNode o → ¬ inclusive_descendant d form o) →
  ¬ qualifies depth d form origin.
Proof.
  intros Hout. destruct origin as [o| |]; simpl; try tauto.
  specialize (Hout o eq_refl). destruct depth.
  - intros ->. apply Hout. constructor.
  - exact Hout.
Qed.

(** A move while a press on the form itself is held, in either mode. *)
Lemma handleMouseMove_on_form (event press : MouseEvent) (s : State) :
  mouseIsDown s = true →
  lastMouseDown s = Some press →
  target press = TargetNode (self (targetForm s)) →
  handleMouseMove rect event s
  = Ok (tt, set_style_translate
              (translate_value (plus (displacement rect (targetForm s)) (movement event)))
              s).
Proof.
  intros Hdown Hpress Ht. unfold handleMouseMove. unfold bind at 1, get.
  rewrite Hdown, Hpress, Ht. cbn [negb instanceof_Node strict_equal contains].
  destruct (interactionDepth s).
  - rewrite bool_decide_eq_true_2 by reflexivity. cbn [negb].
    now rewrite (bind_Ok _ _ _ _ _ (get_currentTranslation_eq rect s)).
  - unfold bind at 1, ret at 1. rewrite contains_node_self. cbn [negb].
    now rewrite (bind_Ok _ _ _ _ _ (get_currentTranslation_eq rect s)).
Qed.

Lemma moves_on_form (press : MouseEvent) (moves : list MouseEvent) :
  ∀ s : State,
    mouseIsDown s = true →
    lastMouseDown s = Some press →
    target press = TargetNode (self (targetForm s)) →
    ∃ value : string,
      ∀ depth : InteractionDepth,
        dispatch_all rect grab_cursor (map mousemove moves)
          (set_interactionDepth depth s)
        = Ok (tt, set_interactionDepth depth (set_style_translate value s)).
Proof.
  induction moves as [|move moves IH]; intros s Hdown Hpress Ht.
  - exists (style_translate (targetForm s)). intros depth.
    now rewrite set_style_translate_current.
  - destruct (IH (set_style_translate
                    (translate_value
                       (plus (displacement rect (targetForm s)) (movement move))) s)
                Hdown Hpress Ht) as [value Hrun].
    exists value. intros depth. cbn [map dispatch_all dispatch].
    rewrite (bind_Ok _ _ _ _ _
               (handleMouseMove_on_form move press (set_interactionDepth depth s)
                  Hdown Hpress Ht)).
    exact (Hrun depth).
Qed.

End Drags.

(** X7. A press that did not land on a node inside the target form starts
    no drag, in shallow mode and in deep mode alike: the moves that follow
    it leave the target form as it was; only the press is put on record
    and the mouse counts as up again after the release. *)
Theorem press_elsewhere_moves_nothing
  (rect : HTMLElement → DOMRect) (grab_cursor : string)
  (press release : MouseEvent) (moves : list MouseEvent)
  (depth : DragTranslater.InteractionDepth) (s : DragTranslater.State) :
  acyclic (DragTranslater.document s) →
  (∀ o : node,
     target press = TargetNode o →
     ¬ inclusive_descendant (DragTranslater.document s)
         (self (DragTranslater.targetForm s)) o) →
  DragTranslater.dispatch_all rect grab_cursor
    (DragTranslater.mousedown press
       :: map DragTranslater.mousemove moves ++ [DragTranslater.mouseup release])
    (DragTranslater.set_interactionDepth depth s)
  = Ok (tt, DragTranslater.set_mouseIsDown false
              (DragTranslater.set_lastMouseDown press
                 (DragTranslater.set_interactionDepth depth s))).
Proof.
  intros Hd Hout. apply drag_not_qualifying; [exact Hd |].
  now apply outside_never_qualifies.
Qed.

(** X8. Two drags one after the other add up: the translation read after
    the second is the translation read before the first plus the movements
    of both. *)
Theorem two_drags_add_up
  (rect : HTMLElement → DOMRect) (grab_cursor : string)
  (press release press' release' : MouseEvent) (moves moves' : list MouseEvent)
  (s : DragTranslater.State) (before : DragTranslater.Vector) :
  DragTranslater.honours_translate rect →
  acyclic (DragTranslater.document s) →
  DragTranslater.qualifies (DragTranslater.interactionDepth s)
    (DragTranslater.document s) (self (DragTranslater.targetForm s)) (target press) →
  DragTranslater.qualifies (DragTranslater.interactionDepth s)
    (DragTranslater.document s) (self (DragTranslater.targetForm s)) (target press') →
  eval (DragTranslater.get_currentTranslation rect) s = Some before →
  eval (DragTranslater.dispatch_all rect grab_cursor
          ((DragTranslater.mousedown press
              :: map DragTranslater.mousemove moves
              ++ [DragTranslater.mouseup release])
           ++ DragTranslater.mousedown press'
              :: map DragTranslater.mousemove moves'
              ++ [DragTranslater.mouseup release'])
        >> DragTranslater.get_currentTranslation rect) s
  = Some (DragTranslater.plus
            (DragTranslater.plus before (DragTranslater.total_movement moves))
            (DragTranslater.total_movement moves')).
Proof.
  intros Hrect Hd Hq Hq' Hbefore.
  rewrite eval_get in Hbefore. injection Hbefore as <-.
  destruct (drag_qualifying rect grab_cursor press release moves s Hrect Hd Hq)
    as (value & Hrun & Hsum).
  match type of Hrun with
  | _ = Ok (tt, ?s1) =>
      destruct (drag_qualifying rect grab_cursor press' release' moves' s1
                  Hrect Hd Hq') as (value' & Hrun' & Hsum')
  end.
  assert (Hboth :
    DragTranslater.dispatch_all rect grab_cursor
      ((DragTranslater.mousedown press
          :: map DragTranslater.mousemove moves
          ++ [DragTranslater.mouseup release])
       ++ DragTranslater.mousedown press'
          :: map DragTranslater.mousemove moves'
          ++ [DragTranslater.mouseup release']) s
    = Ok (tt, DragTranslater.set_mouseIsDown false
                (DragTranslater.set_style_translate value'
                   (DragTranslater.set_lastMouseDown press' s)))).
  { rewrite dispatch_all_app. rewrite (bind_Ok _ _ _ _ _ Hrun). exact Hrun'. }
  rewrite (eval_then_get rect _ _ _ Hboth). f_equal.
  cbn [DragTranslater.targetForm DragTranslater.set_mouseIsDown
       DragTranslater.set_style_translate DragTranslater.set_targetForm
       DragTranslater.set_lastMouseDown] in Hsum' |- *.
  change (with_style_translate value' (with_style_translate value ?el))
    with (with_style_translate value' el) in Hsum'.
  rewrite Hsum'. now rewrite Hsum.
Qed.



(** X11. A drag that starts on the target form itself runs the same in
    shallow mode and in deep mode: the two runs end in states that differ
    in the interaction depth only. *)
Theorem drag_on_form_is_the_same_in_both_modes
  (rect : HTMLElement → DOMRect) (grab_cursor : string)
  (press release : MouseEvent) (moves : list MouseEvent)
  (s : DragTranslater.State) :
  target press = TargetNode (self (DragTranslater.targetForm s)) →
  ∃ s' : DragTranslater.State,
    ∀ depth : DragTranslater.InteractionDepth,
      DragTranslater.dispatch_all rect grab_cursor
        (DragTranslater.mousedown press
           :: map DragTranslater.mousemove moves
           ++ [DragTranslater.mouseup release])
        (DragTranslater.set_interactionDepth depth s)
      = Ok (tt, DragTranslater.set_interactionDepth depth s').
Proof.
  intros Ht.
  destruct (moves_on_form rect grab_cursor press moves
              (DragTranslater.set_mouseIsDown true
                 (DragTranslater.set_lastMouseDown press s)) eq_refl eq_refl Ht)
    as [value Hrun].
  exists (DragTranslater.set_mouseIsDown false
            (DragTranslater.set_style_translate value
               (DragTranslater.set_lastMouseDown press s))).
  intros depth. cbn [DragTranslater.dispatch_all DragTranslater.dispatch].
  rewrite (bind_Ok _ _ _ _ _
             (handleMouseDown_eq press (DragTranslater.set_interactionDepth depth s))).
  rewrite dispatch_all_app.
  now rewrite (bind_Ok _ _ _ _ _ (Hrun depth)).
Qed.

(** ** DragTranslater: the hover affordance *)

Section Hover.

Import DragTranslater.

Variable rect : HTMLElement → DOMRect.
Variable grab_cursor : string.

Lemma filter_other_token_id (token : string) (tokens : list string) :
  token ∉ tokens → filter (λ t, t ≠ token) tokens = tokens.
Proof.
  induction tokens as [|t tokens IH]; intros Hin; [reflexivity |].
  apply not_elem_of_cons in Hin as [Ht Htokens].
  rewrite filter_cons_True by congruence. now rewrite IH.
Qed.

Lemma remove_added_token (token : string) (tokens : list string) :
  token ∉ tokens →
  DOMTokenList_remove token (DOMTokenList_add token tokens) = tokens.
Proof.
  intros Hin. unfold DOMTokenList_remove, DOMTokenList_add.
  rewrite bool_decide_eq_false_2 by assumption.
  rewrite filter_app, filter_other_token_id by assumption.
  rewrite filter_cons_False by (intros H; now apply H). apply app_nil_r.
Qed.

Lemma set_classList_current (s : State) :
  set_classList (classList (targetForm s)) s = s.
Proof. destruct s as [? ? ? [? ? ?] ?]. reflexivity. Qed.

Lemma displacement_classList (tokens : list string) (el : HTMLElement) :
  ignores_classList rect →
  displacement rect (with_classList tokens el) = displacement rect el.
Proof.
  intros Hrect. unfold displacement.
  change (with_style_translate "0px 0px" (with_classList tokens el))
    with (with_classList tokens (with_style_translate "0px 0px" el)).
  now rewrite !Hrect.
Qed.

(** Move handling in one equation: the gate, and what is written when it
    opens. *)
Lemma handleMouseMove_eq (event : MouseEvent) (s : State) :
  handleMouseMove rect event s
  = Ok (tt,
        if mouseIsDown s &&
           match lastMouseDown s with
           | Some press =>
               match target press with
               | TargetNode o =>
                   match interactionDepth s with
                   | shallow => bool_decide (o = self (targetForm s))
                   | deep => contains_node (document s) (self (targetForm s)) o
                   end
               | _ => false
               end
           | None => false
           end
        then set_style_translate
               (translate_value
                  (plus (displacement rect (targetForm s)) (movement event))) s
        else s).
Proof.
  unfold handleMouseMove. unfold bind at 1, get.
  destruct (mouseIsDown s); cbn [negb andb]; [| reflexivity].
  destruct (lastMouseDown s) as [press|]; [| reflexivity].
  destruct (target press) as [o| |]; cbn [instanceof_Node negb]; try reflexivity.
  destruct (interactionDepth s).
  - cbn [strict_equal]. destruct (bool_decide _); cbn [negb]; [| reflexivity].
    now rewrite (bind_Ok _ _ _ _ _ (get_currentTranslation_eq rect s)).
  - unfold bind at 1. cbn [contains]. unfold ret at 1.
    destruct (contains_node _ _ _); cbn [negb]; [| reflexivity].
    now rewrite (bind_Ok _ _ _ _ _ (get_currentTranslation_eq rect s)).
Qed.

(** Move handling does not look at the class list. *)
Lemma handleMouseMove_classList
  (event : MouseEvent) (tokens : list string) (s s' : State) :
  ignores_classList rect →
  handleMouseMove rect event s = Ok (tt, s') →
  handleMouseMove rect event (set_classList tokens s)
  = Ok (tt, set_classList tokens s').
Proof.
  intros Hrect. rewrite !handleMouseMove_eq.
  cbn [mouseIsDown lastMouseDown interactionDepth targetForm document
       set_classList set_targetForm with_classList self].
  intros [= <-]. f_equal. f_equal.
  match goal with |- context [if ?b then _ else _] => destruct b end;
    [| reflexivity].
  now rewrite displacement_classList.
Qed.

(** The events of the window do not look at the class list. *)
Lemma dispatch_classList (ev : Event) (tokens : list string) (s s' : State) :
  ignores_classList rect →
  is_hover ev = false →
  dispatch rect grab_cursor ev s = Ok (tt, s') →
  dispatch rect grab_cursor ev (set_classList tokens s)
  = Ok (tt, set_classList tokens s').
Proof.
  intros Hrect Hev. destruct ev as [event|event|event|event|event];
    try discriminate Hev; cbn [dispatch].
  - now intros [= <-].
  - now apply handleMouseMove_classList.
  - now intros [= <-].
Qed.

Lemma hover_events_filtered (evs : list Event) :
  valid_token grab_cursor →
  ignores_classList rect →
  ∀ (s : State) (tokens : list string),
    ∃ s' : State,
      dispatch_all rect grab_cursor evs s = Ok (tt, s') ∧
      dispatch_all rect grab_cursor (filter (λ ev, is_hover ev = false) evs)
        (set_classList tokens s)
      = Ok (tt, set_classList tokens s').
Proof.
  intros Htoken Hrect. induction evs as [|ev evs IH]; intros s tokens.
  - exists s. split; reflexivity.
  - destruct (dispatch_summary rect grab_cursor ev s Htoken) as (s1 & Hrun & _).
    destruct (is_hover ev) eqn:Hev.
    + rewrite filter_cons_False by (rewrite Hev; discriminate).
      assert (Hsame : set_classList tokens s = set_classList tokens s1).
      { destruct ev as [event|event|event|event|event]; try discriminate Hev;
          cbn [dispatch] in Hrun.
        - rewrite (handleMouseOver_eq grab_cursor event s Htoken) in Hrun.
          injection Hrun as <-. now destruct (strict_equal _ _).
        - rewrite (handleMouseOut_eq grab_cursor event s Htoken) in Hrun.
          injection Hrun as <-. now destruct (strict_equal _ _). }
      destruct (IH s1 tokens) as (s' & Hfull & Hfiltered).
      exists s'. cbn [dispatch_all]. rewrite (bind_Ok _ _ _ _ _ Hrun).
      split; [exact Hfull |]. now rewrite Hsame.
    + rewrite filter_cons_True by exact Hev.
      destruct (IH s1 tokens) as (s' & Hfull & Hfiltered).
      exists s'. cbn [dispatch_all]. rewrite (bind_Ok _ _ _ _ _ Hrun).
      split; [exact Hfull |].
      now rewrite (bind_Ok _ _ _ _ _
                     (dispatch_classList ev tokens s s1 Hrect Hev Hrun)).
Qed.

End Hover.

(** X12. Hovering the target form and leaving it again puts the element
    back as it was, when it did not carry the class before: the class is
    added on [mouseover] and taken away on [mouseout]. *)
Theorem hover_then_leave_restores
  (grab_cursor : string) (over out : MouseEvent) (s : DragTranslater.State) :
  DragTranslater.valid_token grab_cursor →
  target over = TargetNode (self (DragTranslater.targetForm s)) →
  target out = TargetNode (self (DragTranslater.targetForm s)) →
  grab_cursor ∉ classList (DragTranslater.targetForm s) →
  ∃ s' : DragTranslater.State,
    DragTranslater.handleMouseOver grab_cursor over s = Ok (tt, s') ∧
    grab_cursor ∈ classList (DragTranslater.targetForm s') ∧
    DragTranslater.handleMouseOut grab_cursor out s' = Ok (tt, s).
Proof.
  intros Htoken Hover Hout Hnew.
  eexists. split; [apply (handleMouseOver_eq grab_cursor over s Htoken) |].
  rewrite Hover. cbn [strict_equal]. rewrite bool_decide_eq_true_2 by reflexivity.
  split.
  - cbn [DragTranslater.targetForm DragTranslater.set_classList
         DragTranslater.set_targetForm classList with_classList].
    unfold DOMTokenList_add. rewrite bool_decide_eq_false_2 by assumption.
    apply elem_of_app. right. now left.
  - rewrite (handleMouseOut_eq grab_cursor out _ Htoken).
    cbn [DragTranslater.targetForm DragTranslater.set_classList
         DragTranslater.set_targetForm classList with_classList self].
    rewrite Hout. cbn [strict_equal]. rewrite bool_decide_eq_true_2 by reflexivity.
    rewrite remove_added_token by assumption.
    do 2 f_equal. destruct s as [? ? ? [? ? ?] ?]. reflexivity.
Qed.

(** X13. The hover affordance is cosmetic: taking the [mouseover] and
    [mouseout] events out of any sequence of events changes nothing in the
    outcome but the class list, which then stays as it was at the start. *)
Theorem hover_events_are_cosmetic
  (rect : HTMLElement → DOMRect) (grab_cursor : string)
  (evs : list DragTranslater.Event) (s : DragTranslater.State) :
  DragTranslater.valid_token grab_cursor →
  DragTranslater.ignores_classList rect →
  ∃ s' : DragTranslater.State,
    DragTranslater.dispatch_all rect grab_cursor evs s = Ok (tt, s') ∧
    DragTranslater.dispatch_all rect grab_cursor
      (filter (λ ev, DragTranslater.is_hover ev = false) evs) s
    = Ok (tt, DragTranslater.set_classList
                (classList (DragTranslater.targetForm s)) s').
Proof.
  intros Htoken Hrect.
  destruct (hover_events_filtered rect grab_cursor evs Htoken Hrect s
              (classList (DragTranslater.targetForm s))) as (s' & Hfull & Hfiltered).
  exists s'. split; [exact Hfull |].
  now rewrite set_classList_current in Hfiltered.
Qed.


(** ** The first revision *)

Section FirstRevision.

Variable rect : HTMLElement → DOMRect.
Variable grab_cursor : string.

Lemma forget_as_current (t : DragTranslaterV1.State) (d : Document) :
  forget_depth (as_current t d) = t.
Proof. now destruct t. Qed.

Lemma empty_document_acyclic : acyclic {| parents := ∅; children := ∅ |}.
Proof. apply map_Forall_empty. Qed.

Lemma V1_get_currentTranslation_eq (t : DragTranslaterV1.State) :
  DragTranslaterV1.get_currentTranslation rect t
  = Ok (forget_vector
          (DragTranslater.displacement rect (DragTranslaterV1.targetForm t)), t).
Proof. destruct t as [? ? [? ? ?]]. reflexivity. Qed.

(** Move handling of the current revision in shallow mode, against move
    handling of the first revision. *)
Lemma handleMouseMove_simulates (event : MouseEvent) (s : DragTranslater.State) :
  DragTranslater.interactionDepth s = DragTranslater.shallow →
  ∃ s' : DragTranslater.State,
    DragTranslater.handleMouseMove rect event s = Ok (tt, s') ∧
    DragTranslaterV1.handleMouseMove rect event (forget_depth s)
    = Ok (tt, forget_depth s') ∧
    DragTranslater.interactionDepth s' = DragTranslater.shallow.
Proof.
  destruct s as [pressed down depth form d]. simpl. intros ->.
  unfold DragTranslater.handleMouseMove, DragTranslaterV1.handleMouseMove,
    forget_depth, bind, get, ret.
  cbn [DragTranslater.mouseIsDown DragTranslater.lastMouseDown
       DragTranslater.interactionDepth DragTranslater.targetForm
       DragTranslaterV1.mouseIsDown DragTranslaterV1.lastMouseDown
       DragTranslaterV1.targetForm].
  destruct down; cbn [negb];
    [| eexists; split; [reflexivity | repeat split]].
  destruct pressed as [press|];
    [| eexists; split; [reflexivity | repeat split]].
  destruct (target press) as [o| |]; cbn [instanceof_Node strict_equal negb];
    try (eexists; split; [reflexivity | repeat split]).
  destruct (bool_decide (o = self form)); cbn [negb];
    eexists; (split; [reflexivity | repeat split]).
Qed.

Lemma dispatch_simulates (ev : DragTranslaterV1.Event) (s : DragTranslater.State) :
  DragTranslater.interactionDepth s = DragTranslater.shallow →
  ∃ s' : DragTranslater.State,
    DragTranslater.dispatch rect grab_cursor (current_event ev) s = Ok (tt, s') ∧
    DragTranslaterV1.dispatch rect ev (forget_depth s) = Ok (tt, forget_depth s') ∧
    DragTranslater.interactionDepth s' = DragTranslater.shallow.
Proof.
  intros Hshallow. destruct ev as [event|event|event];
    cbn [current_event DragTranslater.dispatch DragTranslaterV1.dispatch].
  - eexists. split; [reflexivity |]. split; [reflexivity | exact Hshallow].
  - now apply handleMouseMove_simulates.
  - eexists. split; [reflexivity |]. split; [reflexivity | exact Hshallow].
Qed.

Lemma dispatch_all_simulates (evs : list DragTranslaterV1.Event) :
  ∀ s : DragTranslater.State,
    DragTranslater.interactionDepth s = DragTranslater.shallow →
    ∃ s' : DragTranslater.State,
      DragTranslater.dispatch_all rect grab_cursor (map current_event evs) s
      = Ok (tt, s') ∧
      DragTranslaterV1.dispatch_all rect evs (forget_depth s)
      = Ok (tt, forget_depth s').
Proof.
  induction evs as [|ev evs IH]; intros s Hshallow.
  - exists s. split; reflexivity.
  - destruct (dispatch_simulates ev s Hshallow) as (s1 & Hrun & Hrun1 & Hshallow1).
    destruct (IH s1 Hshallow1) as (s' & Hall & Hall1).
    exists s'. cbn [map DragTranslater.dispatch_all DragTranslaterV1.dispatch_all].
    rewrite (bind_Ok _ _ _ _ _ Hrun), (bind_Ok _ _ _ _ _ Hrun1).
    split; assumption.
Qed.

(** While a press that is not on the form itself is on record, the first
    revision ignores the moves. *)
Lemma V1_moves_ignored
  (press : MouseEvent) (moves : list MouseEvent) (t : DragTranslaterV1.State) :
  DragTranslaterV1.lastMouseDown t = Some press →
  target press ≠ TargetNode (self (DragTranslaterV1.targetForm t)) →
  DragTranslaterV1.dispatch_all rect (map DragTranslaterV1.mousemove moves) t
  = Ok (tt, t).
Proof.
  intros Hpress Hne.
  assert (Heq : strict_equal (target press) (self (DragTranslaterV1.targetForm t))
                = false).
  { destruct (target press) as [o| |]; try reflexivity. simpl.
    apply bool_decide_eq_false_2. congruence. }
  induction moves as [|move moves IH]; [reflexivity |].
  cbn [map DragTranslaterV1.dispatch_all DragTranslaterV1.dispatch].
  assert (Hmove : DragTranslaterV1.handleMouseMove rect move t = Ok (tt, t)).
  { unfold DragTranslaterV1.handleMouseMove. unfold bind at 1, get.
    rewrite Hpress, Heq. now destruct (DragTranslaterV1.mouseIsDown t). }
  now rewrite (bind_Ok _ _ _ _ _ Hmove).
Qed.

End FirstRevision.

(** X15. A whole session of mouse down, move and up events runs the same
    in the first revision and in the current revision in shallow mode:
    from objects with the same fields, the two end in objects with the
    same fields. *)
Theorem revisions_agree_on_sessions
  (rect : HTMLElement → DOMRect) (grab_cursor : string)
  (evs : list DragTranslaterV1.Event) (s : DragTranslater.State) :
  DragTranslater.interactionDepth s = DragTranslater.shallow →
  ∃ s' : DragTranslater.State,
    DragTranslater.dispatch_all rect grab_cursor (map current_event evs) s
    = Ok (tt, s') ∧
    DragTranslaterV1.dispatch_all rect evs (forget_depth s)
    = Ok (tt, forget_depth s').
Proof. apply dispatch_all_simulates. Qed.

(** X16. In the first revision a drag that starts on the target form
    itself ends with the translation read before it plus the sum of the
    movements. *)
Theorem first_revision_accumulates
  (rect : HTMLElement → DOMRect)
  (press release : MouseEvent) (moves : list MouseEvent)
  (t : DragTranslaterV1.State) (before : DragTranslaterV1.Vector) :
  DragTranslater.honours_translate rect →
  target press = TargetNode (self (DragTranslaterV1.targetForm t)) →
  eval (DragTranslaterV1.get_currentTranslation rect) t = Some before →
  eval (DragTranslaterV1.dispatch_all rect
          (DragTranslaterV1.mousedown press
             :: map DragTranslaterV1.mousemove moves
             ++ [DragTranslaterV1.mouseup release])
        >> DragTranslaterV1.get_currentTranslation rect) t
  = Some {| DragTranslaterV1.x :=
              DragTranslaterV1.x before
              + DragTranslater.x (DragTranslater.total_movement moves);
            DragTranslaterV1.y :=
              DragTranslaterV1.y before
              + DragTranslater.y (DragTranslater.total_movement moves) |}.
Proof.
  intros Hrect Ht Hbefore.
  unfold eval in Hbefore. rewrite V1_get_currentTranslation_eq in Hbefore.
  injection Hbefore as <-.
  set (s := as_current t {| parents := ∅; children := ∅ |}).
  assert (Hq : DragTranslater.qualifies (DragTranslater.interactionDepth s)
                 (DragTranslater.document s) (self (DragTranslater.targetForm s))
                 (target press)) by (rewrite Ht; reflexivity).
  destruct (drag_qualifying rect EmptyString press release moves s Hrect
              empty_document_acyclic Hq) as (value & Hrun & Hsum).
  destruct (dispatch_all_simulates rect EmptyString
              (DragTranslaterV1.mousedown press
                 :: map DragTranslaterV1.mousemove moves
                 ++ [DragTranslaterV1.mouseup release]) s eq_refl)
    as (s' & Hrun' & Hrun1).
  cbn [map current_event] in Hrun'. rewrite map_app, map_map in Hrun'.
  cbn [map current_event] in Hrun'.
  rewrite (map_ext _ DragTranslater.mousemove (λ _, eq_refl)) in Hrun'.
  rewrite Hrun in Hrun'. injection Hrun' as <-.
  subst s. rewrite forget_as_current in Hrun1.
  unfold eval. rewrite (bind_Ok _ _ _ _ _ Hrun1).
  rewrite V1_get_currentTranslation_eq. f_equal.
  cbn [forget_depth DragTranslaterV1.targetForm DragTranslater.targetForm
       DragTranslater.set_mouseIsDown DragTranslater.set_style_translate
       DragTranslater.set_targetForm DragTranslater.set_lastMouseDown as_current]
    in Hsum |- *.
  now rewrite Hsum.
Qed.

(** X17. The first revision only responds to a drag started directly on
    the target form: after a press anywhere else, inside the form
    included, the moves leave the target form as it was. *)
Theorem first_revision_ignores_other_presses
  (rect : HTMLElement → DOMRect)
  (press release : MouseEvent) (moves : list MouseEvent)
  (t : DragTranslaterV1.State) :
  target press ≠ TargetNode (self (DragTranslaterV1.targetForm t)) →
  DragTranslaterV1.dispatch_all rect
    (DragTranslaterV1.mousedown press
       :: map DragTranslaterV1.mousemove moves
       ++ [DragTranslaterV1.mouseup release]) t
  = Ok (tt, DragTranslaterV1.set_mouseIsDown false
              (DragTranslaterV1.set_lastMouseDown press t)).
Proof.
  intros Hne.
  cbn [DragTranslaterV1.dispatch_all DragTranslaterV1.dispatch].
  rewrite (bind_Ok _ _ _ _ _
             (eq_refl : DragTranslaterV1.handleMouseDown press t
                        = Ok (tt, DragTranslaterV1.set_mouseIsDown true
                                    (DragTranslaterV1.set_lastMouseDown press t)))).
  assert (Happ : ∀ (evs evs' : list DragTranslaterV1.Event) (u u' : DragTranslaterV1.State),
            DragTranslaterV1.dispatch_all rect evs u = Ok (tt, u') →
            DragTranslaterV1.dispatch_all rect (evs ++ evs') u
            = DragTranslaterV1.dispatch_all rect evs' u').
  { induction evs as [|ev evs IH]; intros evs' u u'; simpl.
    - now intros [= <-].
    - unfold bind.
      destruct (DragTranslaterV1.dispatch rect ev u) as [[[] u1]|e];
        [apply IH | discriminate]. }
  rewrite (Happ _ _ _ _
             (V1_moves_ignored rect press moves
                (DragTranslaterV1.set_mouseIsDown true
                   (DragTranslaterV1.set_lastMouseDown press t)) eq_refl Hne)).
  reflexivity.
Qed.


(** X19. In the first revision, whatever was accumulated and whether or
    not a press is held, after [untranslate] the translation reads as the
    zero vector, the read leaves the object as it found it, and
    [mouseIsDown] and [lastMouseDown] are what they were. *)
Theorem first_revision_untranslate_resets
  (rect : HTMLElement → DOMRect) (t : DragTranslaterV1.State) :
  ∃ t' : DragTranslaterV1.State,
    DragTranslaterV1.untranslate t = Ok (tt, t') ∧
    DragTranslaterV1.get_currentTranslation rect t'
    = Ok ({| DragTranslaterV1.x := 0; DragTranslaterV1.y := 0 |}, t') ∧
    DragTranslaterV1.mouseIsDown t' = DragTranslaterV1.mouseIsDown t ∧
    DragTranslaterV1.lastMouseDown t' = DragTranslaterV1.lastMouseDown t.
Proof.
  eexists. split; [reflexivity |]. split; [| split; reflexivity].
  rewrite V1_get_currentTranslation_eq. do 2 f_equal.
  cbn [DragTranslaterV1.targetForm DragTranslaterV1.set_style_translate].
  now rewrite displacement_untranslated.
Qed.

(** ** DragTranslater: what the reading does not depend on *)

Section Scrolling.

Import DragTranslater.

Variable rect : HTMLElement → DOMRect.
Variable grab_cursor : string.
Variables dx dy : Z.

Lemma displacement_shift (el : HTMLElement) :
  displacement (λ el, shift dx dy (rect el)) el = displacement rect el.
Proof. unfold displacement, shift. simpl. f_equal; lia. Qed.

Lemma get_currentTranslation_shift (s : State) :
  get_currentTranslation (λ el, shift dx dy (rect el)) s
  = get_currentTranslation rect s.
Proof. rewrite !get_currentTranslation_eq. now rewrite displacement_shift. Qed.

Lemma dispatch_shift (ev : Event) (s : State) :
  dispatch (λ el, shift dx dy (rect el)) grab_cursor ev s
  = dispatch rect grab_cursor ev s.
Proof.
  destruct ev as [event|event|event|event|event]; cbn [dispatch]; try reflexivity.
  rewrite !handleMouseMove_eq. now rewrite displacement_shift.
Qed.

Lemma dispatch_all_shift (evs : list Event) (s : State) :
  dispatch_all (λ el, shift dx dy (rect el)) grab_cursor evs s
  = dispatch_all rect grab_cursor evs s.
Proof.
  revert s. induction evs as [|ev evs IH]; intros s; [reflexivity |].
  cbn [dispatch_all]. unfold bind. rewrite dispatch_shift.
  destruct (dispatch rect grab_cursor ev s) as [[[] s1]|e]; [apply IH | reflexivity].
Qed.

End Scrolling.

(** X20. Where the page displays the target form plays no part: with every
    box the engine reports moved by the same amount, as after scrolling,
    any sequence of events ends in the same state and the translation read
    is the same. *)
Theorem translation_ignores_layout_position
  (rect : HTMLElement → DOMRect) (grab_cursor : string) (dx dy : Z)
  (evs : list DragTranslater.Event) (s : DragTranslater.State) :
  (DragTranslater.dispatch_all (λ el, DragTranslater.shift dx dy (rect el))
     grab_cursor evs
   >> DragTranslater.get_currentTranslation
        (λ el, DragTranslater.shift dx dy (rect el))) s
  = (DragTranslater.dispatch_all rect grab_cursor evs
     >> DragTranslater.get_currentTranslation rect) s.
Proof.
  unfold bind. rewrite dispatch_all_shift.
  destruct (DragTranslater.dispatch_all rect grab_cursor evs s) as [[[] s1]|e];
    [apply get_currentTranslation_shift | reflexivity].
Qed.

(** X21. The hover affordance is for the target form alone: a [mouseover]
    or [mouseout] whose target is anything else, a node inside the form
    included, changes nothing, whatever the class name. *)
Theorem hover_elsewhere_changes_nothing
  (grab_cursor : string) (event : MouseEvent) (s : DragTranslater.State) :
  target event ≠ TargetNode (self (DragTranslater.targetForm s)) →
  DragTranslater.handleMouseOver grab_cursor event s = Ok (tt, s) ∧
  DragTranslater.handleMouseOut grab_cursor event s = Ok (tt, s).
Proof.
  intros Hne.
  assert (Heq : strict_equal (target event) (self (DragTranslater.targetForm s))
                = false).
  { destruct (target event) as [o| |]; try reflexivity. simpl.
    apply bool_decide_eq_false_2. congruence. }
  unfold DragTranslater.handleMouseOver, DragTranslater.handleMouseOut.
  unfold bind at 1 3, get. now rewrite Heq.
Qed.

(** * The further properties at the sample page *)

Lemma sample_children_NoDup : NoDup (childNodes Sample.page 0%nat).
Proof. apply (bool_decide_unpack _). vm_compute. exact I. Qed.

Lemma sample_token_valid : DragTranslater.valid_token Sample.grab_cursor.
Proof. split; [discriminate | reflexivity]. Qed.

Lemma sample_rect_ignores_classList : DragTranslater.ignores_classList Sample.rect.
Proof. intros el tokens. reflexivity. Qed.

Lemma press_keeps_sibling_order_witness :
  ∃ d' : Document,
    FormFronter.onmousedown (Sample.fronter 1%nat) Sample.press_on_form Sample.page
    = Ok (tt, d') ∧
    childNodes d' 0%nat
    = filter (λ k, k ≠ 1%nat) (childNodes Sample.page 0%nat) ++ [1%nat].
Proof.
  apply (press_keeps_sibling_order (Sample.fronter 1%nat) Sample.press_on_form
           Sample.page 0%nat).
  - exact sample_page_acyclic.
  - reflexivity.
  - exact sample_children_NoDup.
Defined.

Lemma press_permutes_children_witness :
  ∃ d' : Document,
    FormFronter.onmousedown (Sample.fronter 1%nat) Sample.press_on_form Sample.page
    = Ok (tt, d') ∧
    childNodes d' 0%nat ≡ₚ childNodes Sample.page 0%nat.
Proof.
  apply (press_permutes_children (Sample.fronter 1%nat) Sample.press_on_form
           Sample.page 0%nat).
  - exact sample_page_acyclic.
  - reflexivity.
  - exact sample_children_NoDup.
  - apply (bool_decide_unpack _). vm_compute. exact I.
Defined.

Lemma press_touches_only_the_parent_witness :
  ∃ d' : Document,
    FormFronter.onmousedown (Sample.fronter 1%nat) Sample.press_on_form Sample.page
    = Ok (tt, d') ∧
    parents d' = parents Sample.page ∧
    acyclic d' ∧
    ∀ q : node,
      parentNode Sample.page 1%nat ≠ Some q →
      childNodes d' q = childNodes Sample.page q.
Proof.
  apply (press_touches_only_the_parent (Sample.fronter 1%nat)
           Sample.press_on_form Sample.page).
  exact sample_page_acyclic.
Defined.

Lemma presses_stack_in_order_witness :
  ∃ d' d'' : Document,
    FormFronter.onmousedown (Sample.fronter 1%nat) Sample.press_on_form Sample.page
    = Ok (tt, d') ∧
    FormFronter.onmousedown (Sample.fronter 2%nat) Sample.release d' = Ok (tt, d'') ∧
    childNodes d'' 0%nat
    = filter (λ k, k ≠ 2%nat ∧ k ≠ 1%nat) (childNodes Sample.page 0%nat)
      ++ [1%nat; 2%nat].
Proof.
  apply (presses_stack_in_order (Sample.fronter 1%nat) (Sample.fronter 2%nat)
           Sample.press_on_form Sample.release Sample.page 0%nat).
  - exact sample_page_acyclic.
  - reflexivity.
  - reflexivity.
  - simpl. lia.
  - exact sample_children_NoDup.
Defined.

Lemma events_preserve_the_page_witness :
  ∃ s' : DragTranslater.State,
    DragTranslater.dispatch_all Sample.rect Sample.grab_cursor Sample.session
      Sample.translater = Ok (tt, s') ∧
    DragTranslater.document s' = Sample.page ∧
    DragTranslater.interactionDepth s' = DragTranslater.shallow ∧
    self (DragTranslater.targetForm s') = 1%nat.
Proof.
  apply (events_preserve_the_page Sample.rect Sample.grab_cursor Sample.session
           Sample.translater).
  exact sample_token_valid.
Defined.

Lemma press_state_follows_the_buttons_witness :
  ∃ s' : DragTranslater.State,
    DragTranslater.dispatch_all Sample.rect Sample.grab_cursor Sample.session
      Sample.translater = Ok (tt, s') ∧
    DragTranslater.mouseIsDown s' = false ∧
    DragTranslater.lastMouseDown s' = Some Sample.press_on_form.
Proof.
  apply (press_state_follows_the_buttons Sample.rect Sample.grab_cursor
           Sample.session Sample.translater).
  exact sample_token_valid.
Defined.

Lemma press_elsewhere_moves_nothing_witness :
  DragTranslater.dispatch_all Sample.rect Sample.grab_cursor
    (DragTranslater.mousedown Sample.release
       :: map DragTranslater.mousemove Sample.moves
       ++ [DragTranslater.mouseup Sample.release])
    (DragTranslater.set_interactionDepth DragTranslater.deep Sample.translater)
  = Ok (tt, DragTranslater.set_mouseIsDown false
              (DragTranslater.set_lastMouseDown Sample.release
                 (DragTranslater.set_interactionDepth DragTranslater.deep
                    Sample.translater))).
Proof.
  apply (press_elsewhere_moves_nothing Sample.rect Sample.grab_cursor
           Sample.release Sample.release Sample.moves DragTranslater.deep
           Sample.translater).
  - exact sample_page_acyclic.
  - intros o [= <-] Hin.
    apply (contains_node_spec _ _ _ sample_page_acyclic) in Hin.
    vm_compute in Hin. discriminate.
Defined.

Lemma two_drags_add_up_witness :
  eval (DragTranslater.dispatch_all Sample.rect Sample.grab_cursor
          ((DragTranslater.mousedown Sample.press_on_form
              :: map DragTranslater.mousemove Sample.moves
              ++ [DragTranslater.mouseup Sample.release])
           ++ DragTranslater.mousedown Sample.press_on_form
              :: map DragTranslater.mousemove Sample.moves
              ++ [DragTranslater.mouseup Sample.release])
        >> DragTranslater.get_currentTranslation Sample.rect) Sample.translater
  = Some (DragTranslater.plus
            (DragTranslater.plus
               {| DragTranslater.x := 10; DragTranslater.y := -4 |}
               (DragTranslater.total_movement Sample.moves))
            (DragTranslater.total_movement Sample.moves)).
Proof.
  apply (two_drags_add_up Sample.rect Sample.grab_cursor).
  - apply reference_engine_honours_translate.
  - exact sample_page_acyclic.
  - reflexivity.
  - reflexivity.
  - vm_compute. reflexivity.
Defined.



Lemma drag_on_form_is_the_same_in_both_modes_witness :
  ∃ s' : DragTranslater.State,
    ∀ depth : DragTranslater.InteractionDepth,
      DragTranslater.dispatch_all Sample.rect Sample.grab_cursor
        (DragTranslater.mousedown Sample.press_on_form
           :: map DragTranslater.mousemove Sample.moves
           ++ [DragTranslater.mouseup Sample.release])
        (DragTranslater.set_interactionDepth depth Sample.translater)
      = Ok (tt, DragTranslater.set_interactionDepth depth s').
Proof.
  apply (drag_on_form_is_the_same_in_both_modes Sample.rect Sample.grab_cursor
           Sample.press_on_form Sample.release Sample.moves Sample.translater).
  reflexivity.
Defined.

Lemma hover_then_leave_restores_witness :
  ∃ s' : DragTranslater.State,
    DragTranslater.handleMouseOver Sample.grab_cursor Sample.press_on_form
      Sample.translater = Ok (tt, s') ∧
    Sample.grab_cursor ∈ classList (DragTranslater.targetForm s') ∧
    DragTranslater.handleMouseOut Sample.grab_cursor Sample.press_on_form s'
    = Ok (tt, Sample.translater).
Proof.
  apply (hover_then_leave_restores Sample.grab_cursor Sample.press_on_form
           Sample.press_on_form Sample.translater).
  - exact sample_token_valid.
  - reflexivity.
  - reflexivity.
  - apply (bool_decide_unpack _). vm_compute. exact I.
Defined.

Lemma hover_events_are_cosmetic_witness :
  ∃ s' : DragTranslater.State,
    DragTranslater.dispatch_all Sample.rect Sample.grab_cursor Sample.session
      Sample.translater = Ok (tt, s') ∧
    DragTranslater.dispatch_all Sample.rect Sample.grab_cursor
      (filter (λ ev, DragTranslater.is_hover ev = false) Sample.session)
      Sample.translater
    = Ok (tt, DragTranslater.set_classList ["form"%string] s').
Proof.
  apply (hover_events_are_cosmetic Sample.rect Sample.grab_cursor Sample.session
           Sample.translater).
  - exact sample_token_valid.
  - exact sample_rect_ignores_classList.
Defined.


Lemma revisions_agree_on_sessions_witness :
  ∃ s' : DragTranslater.State,
    DragTranslater.dispatch_all Sample.rect Sample.grab_cursor
      (map current_event
         [DragTranslaterV1.mousedown Sample.press_on_form;
          DragTranslaterV1.mousemove (Sample.event TargetNull 3 4);
          DragTranslaterV1.mouseup Sample.release])
      Sample.translater
    = Ok (tt, s') ∧
    DragTranslaterV1.dispatch_all Sample.rect
      [DragTranslaterV1.mousedown Sample.press_on_form;
       DragTranslaterV1.mousemove (Sample.event TargetNull 3 4);
       DragTranslaterV1.mouseup Sample.release]
      (forget_depth Sample.translater)
    = Ok (tt, forget_depth s').
Proof.
  apply (revisions_agree_on_sessions Sample.rect Sample.grab_cursor _
           Sample.translater).
  reflexivity.
Defined.

Lemma first_revision_accumulates_witness :
  eval (DragTranslaterV1.dispatch_all Sample.rect
          (DragTranslaterV1.mousedown Sample.press_on_form
             :: map DragTranslaterV1.mousemove Sample.moves
             ++ [DragTranslaterV1.mouseup Sample.release])
        >> DragTranslaterV1.get_currentTranslation Sample.rect)
    Sample.first_translater
  = Some {| DragTranslaterV1.x :=
              10 + DragTranslater.x (DragTranslater.total_movement Sample.moves);
            DragTranslaterV1.y :=
              -4 + DragTranslater.y (DragTranslater.total_movement Sample.moves) |}.
Proof.
  apply (first_revision_accumulates Sample.rect Sample.press_on_form
           Sample.release Sample.moves Sample.first_translater
           {| DragTranslaterV1.x := 10; DragTranslaterV1.y := -4 |}).
  - apply reference_engine_honours_translate.
  - reflexivity.
  - vm_compute. reflexivity.
Defined.

Lemma first_revision_ignores_other_presses_witness :
  DragTranslaterV1.dispatch_all Sample.rect
    (DragTranslaterV1.mousedown Sample.press_on_label
       :: map DragTranslaterV1.mousemove Sample.moves
       ++ [DragTranslaterV1.mouseup Sample.release]) Sample.first_translater
  = Ok (tt, DragTranslaterV1.set_mouseIsDown false
              (DragTranslaterV1.set_lastMouseDown Sample.press_on_label
                 Sample.first_translater)).
Proof.
  apply (first_revision_ignores_other_presses Sample.rect Sample.press_on_label
           Sample.release Sample.moves Sample.first_translater).
  simpl. intros [= H]; lia.
Defined.


Lemma hover_elsewhere_changes_nothing_witness :
  DragTranslater.handleMouseOver Sample.grab_cursor Sample.press_on_label
    Sample.translater = Ok (tt, Sample.translater) ∧
  DragTranslater.handleMouseOut Sample.grab_cursor Sample.press_on_label
    Sample.translater = Ok (tt, Sample.translater).
Proof.
  apply (hover_elsewhere_changes_nothing Sample.grab_cursor Sample.press_on_label
           Sample.translater).
  simpl. intros [= H]; lia.
Defined.
